(** * fisheye-tool: camera models and the undistortion-map builder

    A shallow embedding of [src/fisheye/schemas.py], [src/fisheye/camera.py]
    and [src/fisheye/projection.py].

    Numbers.  Python [int]s are [Z]; NumPy/Python floating-point numbers are
    idealised as the real numbers [R] (no rounding, no overflow, and the cast
    of the map fields to [float32] is the identity).  Division is [Rdiv]: a
    statement that depends on a quotient carries, or proves, that the divisor
    is not zero.

    Arrays.  A 2-D array is a list of rows; [a[j][i]] is row [j], column [i].
    Boolean-mask indexing and assignment are modelled as NumPy performs
    them, on the selected elements in row-major order.

    Exceptions.  A function that may [raise] returns [result A];
    [inl e] is the raised exception. *)

From Stdlib Require Import Reals Lra Lia ZArith String List Bool.
Import ListNotations.

Local Open Scope R_scope.

(** ** schemas.py *)

Inductive CameraType : Set :=
  | EQUIDISTANT
  | EQUISOLID
  | ORTHOGRAPHIC
  | STEREOGRAPHIC.

Inductive FisheyeFormat : Set :=
  | CIRCULAR
  | DIAGONAL.

(** Python does not enforce the annotations [camera_type: CameraType] and
    [format: FisheyeFormat]: any object can reach the [if]/[elif] chains.
    [PyTag] is such an object, known only as far as the comparisons
    [== CameraType.X] and [== FisheyeFormat.X] can tell; [OtherTag] carries
    the text that the f-string of the error message prints for it. *)
Inductive PyTag : Set :=
  | CameraTag (c : CameraType)
  | FormatTag (f : FisheyeFormat)
  | OtherTag (repr : string).

Definition CameraType_str (c : CameraType) : string :=
  match c with
  | EQUIDISTANT => "CameraType.EQUIDISTANT"
  | EQUISOLID => "CameraType.EQUISOLID"
  | ORTHOGRAPHIC => "CameraType.ORTHOGRAPHIC"
  | STEREOGRAPHIC => "CameraType.STEREOGRAPHIC"
  end.

Definition FisheyeFormat_str (f : FisheyeFormat) : string :=
  match f with
  | CIRCULAR => "FisheyeFormat.CIRCULAR"
  | DIAGONAL => "FisheyeFormat.DIAGONAL"
  end.

Definition PyTag_str (t : PyTag) : string :=
  match t with
  | CameraTag c => CameraType_str c
  | FormatTag f => FisheyeFormat_str f
  | OtherTag repr => repr
  end.

(** ** Exceptions *)

Inductive PyExn : Set :=
  | ValueError (msg : string)
  | FileNotFoundError (msg : string).

Definition result (A : Type) : Type := (PyExn + A)%type.

Definition ret {A : Type} (a : A) : result A := inr a.
Definition raise {A : Type} (e : PyExn) : result A := inl e.

Definition bind {A B : Type} (m : result A) (k : A -> result B) : result B :=
  match m with
  | inl e => inl e
  | inr a => k a
  end.

Notation "x <- m ;; k" := (bind m (fun x => k))
  (at level 61, m at next level, right associativity).

Definition raises {A : Type} (m : result A) : Prop :=
  exists e, m = inl e.

(** ** The NumPy functions the code calls, on idealised reals

    [np_arcsin] is NumPy's only inside [[-1, 1]] (NumPy returns NaN outside,
    [asin] clamps), and [np_tan] only where [cos] is not zero. *)

Definition np_sin (x : R) : R := sin x.
Definition np_tan (x : R) : R := tan x.
Definition np_arcsin (x : R) : R := asin x.
Definition np_arctan (x : R) : R := atan x.
Definition np_sqrt (x : R) : R := sqrt x.
Definition np_hypot (x y : R) : R := sqrt (x * x + y * y).
Definition np_radians (deg : R) : R := deg * (PI / 180).
Definition np_deg2rad (deg : R) : R := deg * (PI / 180).

(** ** camera.py *)

(** The four concrete subclasses of [FisheyeCamera]; each stores
    [_focal_length] and nothing else. *)
Inductive FisheyeCamera : Type :=
  | EquidistantCamera (_focal_length : R)
  | EquisolidCamera (_focal_length : R)
  | OrthographicCamera (_focal_length : R)
  | StereographicCamera (_focal_length : R).

Definition focal_length (self : FisheyeCamera) : R :=
  match self with
  | EquidistantCamera f => f
  | EquisolidCamera f => f
  | OrthographicCamera f => f
  | StereographicCamera f => f
  end.

Definition theta_to_r (self : FisheyeCamera) (theta : R) : R :=
  match self with
  | EquidistantCamera f => f * theta
  | EquisolidCamera f => 2 * f * np_sin (theta / 2)
  | OrthographicCamera f => f * np_sin theta
  | StereographicCamera f => 2 * f * np_tan (theta / 2)
  end.

Definition r_to_theta (self : FisheyeCamera) (r : R) : R :=
  match self with
  | EquidistantCamera f => r / f
  | EquisolidCamera f => 2 * np_arcsin (r / (2 * f))
  | OrthographicCamera f => np_arcsin (r / f)
  | StereographicCamera f => 2 * np_arctan (r / (2 * f))
  end.

(** The static methods [f_from_theta_and_r] of the four classes. *)
Definition Equidistant_f_from_theta_and_r (theta_max r_max : R) : R :=
  r_max / theta_max.
Definition Equisolid_f_from_theta_and_r (theta_max r_max : R) : R :=
  r_max / (2 * np_sin (theta_max / 2)).
Definition Orthographic_f_from_theta_and_r (theta_max r_max : R) : R :=
  r_max / np_sin theta_max.
Definition Stereographic_f_from_theta_and_r (theta_max r_max : R) : R :=
  r_max / (2 * np_tan (theta_max / 2)).

(** [FisheyeCameraFactory]. *)
Definition create_camera (camera_type : PyTag) (focal_length : R)
  : result FisheyeCamera :=
  match camera_type with
  | CameraTag EQUIDISTANT => ret (EquidistantCamera focal_length)
  | CameraTag EQUISOLID => ret (EquisolidCamera focal_length)
  | CameraTag ORTHOGRAPHIC => ret (OrthographicCamera focal_length)
  | CameraTag STEREOGRAPHIC => ret (StereographicCamera focal_length)
  | _ => raise (ValueError ("Unknown camera type: " ++ PyTag_str camera_type))
  end.

Definition f_from_theta_and_r (camera_type : PyTag) (theta r : R)
  : result R :=
  match camera_type with
  | CameraTag EQUIDISTANT => ret (Equidistant_f_from_theta_and_r theta r)
  | CameraTag EQUISOLID => ret (Equisolid_f_from_theta_and_r theta r)
  | CameraTag ORTHOGRAPHIC => ret (Orthographic_f_from_theta_and_r theta r)
  | CameraTag STEREOGRAPHIC => ret (Stereographic_f_from_theta_and_r theta r)
  | _ => raise (ValueError ("Unknown camera type: " ++ PyTag_str camera_type))
  end.

(** ** Arrays *)

Definition array (A : Type) : Type := list (list A).

Fixpoint zip_with {A B C : Type} (f : A -> B -> C) (a : list A) (b : list B)
  : list C :=
  match a, b with
  | u :: a', v :: b' => f u v :: zip_with f a' b'
  | _, _ => []
  end.

Definition map2d {A B : Type} (f : A -> B) (a : array A) : array B :=
  map (map f) a.

Definition zip2d {A B C : Type} (f : A -> B -> C) (a : array A) (b : array B)
  : array C :=
  zip_with (zip_with f) a b.

(** [a.shape[0]] and [a.shape[1]]. *)
Definition shape0 {A : Type} (a : array A) : Z := Z.of_nat (length a).
Definition shape1 {A : Type} (a : array A) : Z := Z.of_nat (length (hd [] a)).

(** [a[j][i]], for [j] and [i] inside the array. *)
Definition get2 {A : Type} (d : A) (a : array A) (j i : nat) : A :=
  nth i (nth j a []) d.

(** Every row has [w] entries and there are [h] rows. *)
Definition has_shape {A : Type} (h w : nat) (a : array A) : Prop :=
  length a = h /\ Forall (fun row => length row = w) a.

(** Two arrays with as many rows, and row by row as many columns. *)
Definition same_shape {A B : Type} (a : array A) (b : array B) : Prop :=
  Forall2 (fun r s => length r = length s) a b.

(** Python slicing [l[lo:hi]], negative bounds counted from the end and
    bounds beyond the end clamped. *)
Definition py_slice_bound (len i : Z) : Z :=
  if (i <? 0)%Z then Z.max 0 (i + len) else Z.min i len.

Definition py_slice {A : Type} (lo hi : Z) (l : list A) : list A :=
  let len := Z.of_nat (length l) in
  let a := py_slice_bound len lo in
  let b := py_slice_bound len hi in
  firstn (Z.to_nat (b - a)) (skipn (Z.to_nat a) l).

(** [a[r0:r1, c0:c1]]. *)
Definition py_slice2 {A : Type} (r0 r1 c0 c1 : Z) (a : array A) : array A :=
  map (py_slice c0 c1) (py_slice r0 r1 a).

(** [np.arange(n)]. *)
Definition np_arange (n : Z) : list Z :=
  map Z.of_nat (seq 0 (Z.to_nat n)).

(** [np.meshgrid(x, y)]: both results have [len(y)] rows and [len(x)]
    columns; the first repeats [x] along the rows, the second has [y[j]]
    all along row [j]. *)
Definition np_meshgrid (x y : list Z) : array Z * array Z :=
  (map (fun _ => x) y, map (fun yj => map (fun _ => yj) x) y).

(** [np.zeros_like(a, dtype=np.float32)]. *)
Definition np_zeros_like {A : Type} (a : array A) : array R :=
  map2d (fun _ => 0) a.

(** [d != 0], element by element it is decided on the reals. *)
Definition Rneqb (a b : R) : bool :=
  if Req_dec_T a b then false else true.

(** Boolean-mask indexing [a[mask]] of one row: the selected elements, in
    order. *)
Fixpoint np_select {A : Type} (mask : list bool) (a : list A) : list A :=
  match mask, a with
  | true :: m, v :: a' => v :: np_select m a'
  | false :: m, _ :: a' => np_select m a'
  | _, _ => []
  end.

(** [a[mask]] of a 2-D array: a 1-D array, row-major. *)
Definition np_select2 {A : Type} (mask : array bool) (a : array A) : list A :=
  concat (zip_with np_select mask a).

(** Boolean-mask assignment [base[mask] = vals] on one row.  NumPy raises
    when [vals] has fewer elements than the mask selects; every call below
    selects [vals] with the same mask, and the model keeps [base] there. *)
Fixpoint np_put {A : Type} (mask : list bool) (base vals : list A) : list A :=
  match mask, base with
  | true :: m, b :: base' =>
      match vals with
      | v :: vals' => v :: np_put m base' vals'
      | [] => b :: np_put m base' []
      end
  | false :: m, b :: base' => b :: np_put m base' vals
  | _, _ => []
  end.

Definition count_true (mask : list bool) : nat :=
  length (filter (fun b => b) mask).

(** [base[mask] = vals] on a 2-D array: the rows take their values from
    [vals] one after the other. *)
Fixpoint np_put2 {A : Type} (mask : array bool) (base : array A)
  (vals : list A) : array A :=
  match mask, base with
  | mrow :: m, brow :: base' =>
      let n := count_true mrow in
      np_put mrow brow (firstn n vals) :: np_put2 m base' (skipn n vals)
  | _, _ => []
  end.

(** ** projection.py *)

(** A decoded image: rows of BGR pixels. *)
Definition Pixel : Type := (Z * Z * Z)%type.
Definition Image : Type := array Pixel.

(** What the code asks of the operating system and of OpenCV. *)
Record Env : Type := {
  os_path_exists : string -> bool;
  cv2_imread : string -> option Image;
  cv2_resize : array R -> Z * Z -> array R;
  cv2_remap : Image -> array R -> array R -> Image
}.

(** The attributes of a [FisheyeToPerspective] object after [__init__]. *)
Record FisheyeToPerspective : Type := {
  _image_file : string;
  _fov : R;
  _rfov : R;
  _perspective_fov : R;
  _format : PyTag;
  image : Image;
  _height : Z;
  _width : Z;
  _x_center : Z;
  _y_center : Z;
  _camera_type : PyTag;
  _output_shape : option (Z * Z)
}.

(** The attributes [read_image] assigns. *)
Record ImageAttrs : Type := {
  ia_image : Image;
  ia_height : Z;
  ia_width : Z;
  ia_x_center : Z;
  ia_y_center : Z
}.

Definition read_image (env : Env) (image_file : string) : result ImageAttrs :=
  if negb (os_path_exists env image_file) then
    raise (FileNotFoundError ("Image file " ++ image_file ++ " not found"))
  else
    match cv2_imread env image_file with
    | None =>
        raise (ValueError ("Could not read image file " ++ image_file))
    | Some img =>
        let height := shape0 img in
        let width := shape1 img in
        let dim := Z.min width height in
        let offset_x := ((width - dim) / 2)%Z in
        let offset_y := ((height - dim) / 2)%Z in
        let img :=
          py_slice2 offset_y (offset_y + dim) offset_x (offset_x + dim) img in
        let height := shape0 img in
        let width := shape1 img in
        ret {| ia_image := img;
               ia_height := height;
               ia_width := width;
               ia_x_center := ((width - 1) / 2)%Z;
               ia_y_center := ((height - 1) / 2)%Z |}
    end.

(** [FisheyeToPerspective.__init__]. *)
Definition init (env : Env) (image_file : string) (fov perspective_fov : R)
  (camera_type format : PyTag) (output_shape : option (Z * Z))
  : result FisheyeToPerspective :=
  ia <- read_image env image_file ;;
  ret {| _image_file := image_file;
         _fov := fov;
         _rfov := fov / 2;
         _perspective_fov := perspective_fov;
         _format := format;
         image := ia_image ia;
         _height := ia_height ia;
         _width := ia_width ia;
         _x_center := ia_x_center ia;
         _y_center := ia_y_center ia;
         _camera_type := camera_type;
         _output_shape := output_shape |}.

Definition get_perspective_width (self : FisheyeToPerspective) : result R :=
  match _format self with
  | FormatTag CIRCULAR => ret (IZR (Z.min (_width self) (_height self)))
  | FormatTag DIAGONAL =>
      ret (np_sqrt (IZR (_width self ^ 2 + _height self ^ 2)))
  | _ => raise (ValueError ("Unknown format " ++ PyTag_str (_format self)))
  end.

Definition focal_length_from_fov (fov width : R) : R :=
  width / (2 * np_tan (np_radians fov / 2)).

Definition generate_meshgrid (self : FisheyeToPerspective)
  : array Z * array Z :=
  let x := np_arange (_width self) in
  let y := np_arange (_height self) in
  let (x, y) := np_meshgrid x y in
  let x := map2d (fun v => (v - _x_center self)%Z) x in
  let y := map2d (fun v => (v - _y_center self)%Z) y in
  (x, y).

(** [distorted_r = np.hypot(x, y)] and [mask = distorted_r != 0], the first
    and the seventh statement of [init_undistort_map]. *)
Definition distorted_radius (xy : array Z * array Z) : array R :=
  zip2d np_hypot (map2d IZR (fst xy)) (map2d IZR (snd xy)).

Definition nonzero_mask (distorted_r : array R) : array bool :=
  map2d (fun d => Rneqb d 0) distorted_r.

Definition init_undistort_map (self : FisheyeToPerspective)
  (xy : array Z * array Z) (pfocal dim : R) : result (array R * array R) :=
  let x := map2d IZR (fst xy) in
  let y := map2d IZR (snd xy) in
  let distorted_r := distorted_radius xy in
  let theta := map2d (fun d => np_arctan (d / pfocal)) distorted_r in
  focal_fisheye <-
    f_from_theta_and_r (_camera_type self) (np_deg2rad (_rfov self))
      (dim / 2) ;;
  camera <- create_camera (_camera_type self) focal_fisheye ;;
  let perspective_r := map2d (theta_to_r camera) theta in
  let mask := nonzero_mask distorted_r in
  let map_x := np_zeros_like x in
  let map_y := np_zeros_like y in
  let map_x :=
    np_put2 mask map_x
      (map (fun v => v + IZR (_x_center self))
         (zip_with Rmult
            (zip_with Rdiv (np_select2 mask perspective_r)
               (np_select2 mask distorted_r))
            (np_select2 mask x))) in
  let map_y :=
    np_put2 mask map_y
      (map (fun v => v + IZR (_y_center self))
         (zip_with Rmult
            (zip_with Rdiv (np_select2 mask perspective_r)
               (np_select2 mask distorted_r))
            (np_select2 mask y))) in
  ret (map_x, map_y).

(** The first half of [__call__]: the coordinate maps handed to
    [cv2.remap]. *)
Definition undistort_maps (env : Env) (self : FisheyeToPerspective)
  : result (array R * array R) :=
  dim <- get_perspective_width self ;;
  let perspective_focal_length :=
    focal_length_from_fov (_perspective_fov self) dim in
  let xy := generate_meshgrid self in
  maps <- init_undistort_map self xy perspective_focal_length dim ;;
  let (map_x, map_y) := maps in
  match _output_shape self with
  | Some shape => ret (cv2_resize env map_x shape, cv2_resize env map_y shape)
  | None => ret (map_x, map_y)
  end.

(** [FisheyeToPerspective.__call__] with [output_file = None]. *)
Definition call (env : Env) (self : FisheyeToPerspective) : result Image :=
  maps <- undistort_maps env self ;;
  ret (cv2_remap env (image self) (fst maps) (snd maps)).

(** ** Inputs for the examples

    [blank_image h w] is a black image of [h] rows and [w] columns.
    [env_with img] is an environment in which every path exists and decodes
    to [img]; its two OpenCV resampling functions hand their first argument
    back (no statement below depends on what they compute). *)

Definition blank_image (h w : nat) : Image :=
  repeat (repeat (0, 0, 0)%Z w) h.

Definition env_with (img : Image) : Env :=
  {| os_path_exists := fun _ => true;
     cv2_imread := fun _ => Some img;
     cv2_resize := fun a _ => a;
     cv2_remap := fun src _ _ => src |}.

(** ** The rest of [__call__], cli.py and scripts/main.py

    What a run leaves behind: the calls of [cv2.imwrite] and the lines
    written to the standard output by [typer.echo] and [print], in the
    order in which they happen.  An exception ends the run; the effects
    that precede it stay. *)

Inductive Effect : Type :=
  | Imwrite (path : string) (img : Image)
  | Echo (line : string).


(** A keyword argument left out takes its default. *)
Definition with_default {A : Type} (default : A) (arg : option A) : A :=
  match arg with
  | Some v => v
  | None => default
  end.

(** What one call of [cv2.imwrite] does: it writes the file and returns
    [True]; or it writes nothing and returns [False] (the directory of the
    path does not exist); or it raises [cv2.error] (the name has no
    extension that OpenCV knows). *)
Inductive ImwriteOutcome : Set :=
  | ImwriteTrue
  | ImwriteFalse
  | ImwriteError (msg : string).

(** The exceptions that end a run of the command of cli.py: those of
    projection.py and camera.py, and [cv2.error]. *)
Inductive CliExn : Set :=
  | CoreExn (e : PyExn)
  | Cv2Error (msg : string).

(** [FisheyeToPerspective.__call__(output_file)] with the outcome of
    [cv2.imwrite] decided by [cv2_imwrite]; [__call__] ignores the value
    that [cv2.imwrite] returns.  [Imwrite] is recorded when the file was
    written. *)
Definition call_imwrite (env : Env)
  (cv2_imwrite : string -> Image -> ImwriteOutcome)
  (self : FisheyeToPerspective) (output_file : option string)
  : list Effect * (CliExn + Image) :=
  match undistort_maps env self with
  | inl e => ([], inl (CoreExn e))
  | inr maps =>
      let perspective_image :=
        cv2_remap env (image self) (fst maps) (snd maps) in
      match output_file with
      | Some path =>
          match cv2_imwrite path perspective_image with
          | ImwriteTrue =>
              ([Imwrite path perspective_image], inr perspective_image)
          | ImwriteFalse => ([], inr perspective_image)
          | ImwriteError msg => ([], inl (Cv2Error msg))
          end
      | None => ([], inr perspective_image)
      end
  end.

(** cli.py, [fisheye_to_perspective]. *)
Definition cli_fisheye_to_perspective (env : Env)
  (cv2_imwrite : string -> Image -> ImwriteOutcome)
  (input_file output_file : string) (fov perspective_fov : option R)
  (camera_type format : option PyTag) : list Effect * (CliExn + unit) :=
  let fov := with_default 180 fov in
  let perspective_fov := with_default 120 perspective_fov in
  let camera_type := with_default (CameraTag EQUIDISTANT) camera_type in
  let format := with_default (FormatTag CIRCULAR) format in
  match init env input_file fov perspective_fov camera_type format None with
  | inl e => ([], inl (CoreExn e))
  | inr fisheye_to_perspective =>
      match call_imwrite env cv2_imwrite fisheye_to_perspective
              (Some output_file) with
      | (effects, inl e) => (effects, inl e)
      | (effects, inr _) =>
          (effects ++ [Echo ("Saved image " ++ output_file)], inr tt)
      end
  end.


(** [member.name] and the members of the two enumerations in the order of
    their definition, which is the order of [for member in Enum]. *)
Definition CameraType_name (c : CameraType) : string :=
  match c with
  | EQUIDISTANT => "EQUIDISTANT"
  | EQUISOLID => "EQUISOLID"
  | ORTHOGRAPHIC => "ORTHOGRAPHIC"
  | STEREOGRAPHIC => "STEREOGRAPHIC"
  end.

Definition FisheyeFormat_name (f : FisheyeFormat) : string :=
  match f with
  | CIRCULAR => "CIRCULAR"
  | DIAGONAL => "DIAGONAL"
  end.

Definition CameraType_members : list CameraType :=
  [EQUIDISTANT; EQUISOLID; ORTHOGRAPHIC; STEREOGRAPHIC].

Definition FisheyeFormat_members : list FisheyeFormat :=
  [CIRCULAR; DIAGONAL].



(** ** app.py: the arrays of [ImageWidget] and the names of the dialog *)

(** [np.flip(image, axis=2)]: the three channels in reverse order. *)
Definition np_flip_axis2 (img : Image) : Image :=
  map2d (fun p : Pixel => let '(b, g, r) := p in (r, g, b)) img.

(** [a.swapaxes(0, 1)] of an array with at least one row. *)
Fixpoint np_swapaxes01 {A : Type} (a : array A) : array A :=
  match a with
  | [] => []
  | row :: rest =>
      match rest with
      | [] => map (fun v => [v]) row
      | _ :: _ => zip_with cons row (np_swapaxes01 rest)
      end
  end.

(** [ImageWidget.set_image]: the array that is displayed and stored in
    [image_data].  An [Image] has three axes, so [image.ndim == 3] holds. *)
Definition set_image (img : Image) : Image :=
  np_swapaxes01 (np_flip_axis2 img).

(** [ImageWidget.mouseMoveEvent], from the integer position [(x, y)] on:
    the triple that [on_mouse_moved] emits, if it emits. *)
Definition mouse_moved (image_data : option Image) (x y : Z)
  : option (Z * Z * Pixel) :=
  match image_data with
  | None => None
  | Some data =>
      if ((0 <=? x)%Z && (x <? shape1 data)%Z
          && ((0 <=? y)%Z && (y <? shape0 data)%Z))%bool
      then Some (x, y, get2 (0, 0, 0)%Z data (Z.to_nat y) (Z.to_nat x))
      else None
  end.

(** The items of the two combo boxes of [FisheyeSettingsDialog]. *)
Definition camera_type_items : list string :=
  map CameraType_name CameraType_members.

Definition format_items : list string :=
  map FisheyeFormat_name FisheyeFormat_members.

(** [CameraType[name]] and [FisheyeFormat[name]], as [submit] evaluates
    them; [None] is the [KeyError] of a name that no member has. *)
Definition CameraType_by_name (name : string) : option CameraType :=
  find (fun c => String.eqb (CameraType_name c) name) CameraType_members.

Definition FisheyeFormat_by_name (name : string) : option FisheyeFormat :=
  find (fun f => String.eqb (FisheyeFormat_name f) name)
    FisheyeFormat_members.

(** * Properties *)

(** ** Trigonometric facts used below *)

Lemma PI_pos : 0 < PI.
Proof. exact PI_RGT_0. Qed.

Lemma sin_pos_open (x : R) : 0 < x -> x < PI -> 0 < sin x.
Proof. intros H0 H1. apply sin_gt_0; assumption. Qed.

Lemma sin_half_pos (x : R) : 0 < x -> x < PI -> 0 < sin (x / 2).
Proof.
  intros H0 H1. pose proof PI_pos. apply sin_gt_0; lra.
Qed.

Lemma tan_half_pos (x : R) : 0 < x -> x < PI -> 0 < tan (x / 2).
Proof.
  intros H0 H1. apply tan_gt_0; lra.
Qed.

Lemma sin_PI4_pos : 0 < sin (PI / 4).
Proof. pose proof PI_pos. apply sin_gt_0; lra. Qed.

Lemma sin_PI4_le_1 : sin (PI / 4) <= 1.
Proof. apply SIN_bound. Qed.

Lemma sin_mono_quarter (x y : R) :
  0 <= x -> x < y -> y <= PI / 2 -> sin x < sin y.
Proof.
  intros Hx Hxy Hy. pose proof PI_pos.
  apply sin_increasing_1; lra.
Qed.

Lemma tan_mono_half (x y : R) :
  0 <= x -> x < y -> y <= PI / 2 -> tan (x / 2) < tan (y / 2).
Proof.
  intros Hx Hxy Hy. pose proof PI_pos.
  apply tan_increasing; lra.
Qed.

(** ** The camera models *)

Lemma create_camera_focal (ct : CameraType) (f : R) :
  exists cam, create_camera (CameraTag ct) f = inr cam /\ focal_length cam = f.
Proof.
  destruct ct; simpl; eexists; (split; [reflexivity | reflexivity]).
Qed.

(** On [[0, PI/2]] every forward mapping with a positive focal length is
    strictly increasing. *)
Lemma theta_to_r_increasing_closed (cam : FisheyeCamera) (t1 t2 : R) :
  0 < focal_length cam ->
  0 <= t1 -> t1 < t2 -> t2 <= PI / 2 ->
  theta_to_r cam t1 < theta_to_r cam t2.
Proof.
  intros Hf H1 H12 H2. pose proof PI_pos as HPI.
  destruct cam as [f | f | f | f]; simpl in *;
    unfold np_sin, np_tan.
  - nra.
  - assert (sin (t1 / 2) < sin (t2 / 2)) by (apply sin_mono_quarter; lra).
    nra.
  - assert (sin t1 < sin t2) by (apply sin_mono_quarter; lra).
    nra.
  - assert (tan (t1 / 2) < tan (t2 / 2)) by (apply tan_mono_half; lra).
    nra.
Qed.

Lemma theta_to_r_0 (cam : FisheyeCamera) : theta_to_r cam 0 = 0.
Proof.
  destruct cam as [f | f | f | f]; simpl; unfold np_sin, np_tan;
    replace (0 / 2) with 0 by lra;
    rewrite ?sin_0, ?tan_0; lra.
Qed.

(** The radii of the angles in [[0, PI/2)] lie in
    [[0, theta_to_r (PI/2))]. *)
Lemma theta_to_r_range (cam : FisheyeCamera) (t : R) :
  0 < focal_length cam ->
  0 <= t < PI / 2 ->
  0 <= theta_to_r cam t < theta_to_r cam (PI / 2).
Proof.
  intros Hf [H0 H1]. split.
  - destruct (Req_dec_T t 0) as [-> | Hne].
    + rewrite theta_to_r_0. lra.
    + rewrite <- (theta_to_r_0 cam). left.
      apply theta_to_r_increasing_closed; lra.
  - apply theta_to_r_increasing_closed; lra.
Qed.

Lemma r_to_theta_theta_to_r (cam : FisheyeCamera) (t : R) :
  0 < focal_length cam ->
  0 <= t < PI / 2 ->
  r_to_theta cam (theta_to_r cam t) = t.
Proof.
  intros Hf [H0 H1]. pose proof PI_pos as HPI.
  destruct cam as [f | f | f | f]; simpl in *;
    unfold np_sin, np_tan, np_arcsin, np_arctan.
  - field. lra.
  - replace (2 * f * sin (t / 2) / (2 * f)) with (sin (t / 2)) by (field; lra).
    rewrite asin_sin by lra. lra.
  - replace (f * sin t / f) with (sin t) by (field; lra).
    apply asin_sin. lra.
  - replace (2 * f * tan (t / 2) / (2 * f)) with (tan (t / 2)) by (field; lra).
    rewrite atan_tan by lra. lra.
Qed.

Lemma theta_to_r_r_to_theta (cam : FisheyeCamera) (r : R) :
  0 < focal_length cam ->
  0 <= r < theta_to_r cam (PI / 2) ->
  theta_to_r cam (r_to_theta cam r) = r.
Proof.
  intros Hf [H0 H1]. pose proof PI_pos as HPI.
  destruct cam as [f | f | f | f]; simpl in *;
    unfold np_sin, np_tan, np_arcsin, np_arctan in *.
  - field. lra.
  - replace (2 * asin (r / (2 * f)) / 2) with (asin (r / (2 * f))) by lra.
    replace (PI / 2 / 2) with (PI / 4) in H1 by lra.
    pose proof sin_PI4_le_1. pose proof sin_PI4_pos.
    assert (Hq : 0 <= r / (2 * f) <= 1).
    { split.
      - apply Rmult_le_pos; [lra |]. left. apply Rinv_0_lt_compat. lra.
      - apply Rmult_le_reg_r with (2 * f); [lra |].
        replace (r / (2 * f) * (2 * f)) with r by (field; lra). nra. }
    rewrite sin_asin by lra. field. lra.
  - rewrite sin_PI2 in H1.
    assert (Hq : 0 <= r / f <= 1).
    { split.
      - apply Rmult_le_pos; [lra |]. left. apply Rinv_0_lt_compat. lra.
      - apply Rmult_le_reg_r with f; [lra |].
        replace (r / f * f) with r by (field; lra). lra. }
    rewrite sin_asin by lra. field. lra.
  - replace (2 * atan (r / (2 * f)) / 2) with (atan (r / (2 * f))) by lra.
    rewrite tan_atan. field. lra.
Qed.

Lemma asin_sin_beyond (t : R) :
  PI / 2 <= t <= 3 * (PI / 2) -> asin (sin t) = PI - t.
Proof.
  intros [H0 H1]. rewrite <- (sin_PI_x t).
  apply asin_sin. lra.
Qed.

Lemma orthographic_folds (f e : R) :
  theta_to_r (OrthographicCamera f) (PI / 2 + e) =
  theta_to_r (OrthographicCamera f) (PI / 2 - e).
Proof.
  simpl. unfold np_sin. rewrite <- (sin_PI_x (PI / 2 + e)).
  replace (PI - (PI / 2 + e)) with (PI / 2 - e) by lra. reflexivity.
Qed.

(** C4: for each of the four camera types, the focal length derived from
    [(theta_max, r_max)] makes the forward mapping send [theta_max] back to
    [r_max], for every [theta_max] strictly between [0] and [PI] (this
    covers [(0, PI/2]], the half field-of-view of a lens of up to 180
    degrees) and every [r_max]; the factory raises nothing on the way, and
    a positive [r_max] gives a positive focal length. *)
Theorem C4_focal_from_extremes_reproduces_r_max
  (ct : CameraType) (theta_max r_max : R) :
  0 < theta_max < PI ->
  exists f cam,
    f_from_theta_and_r (CameraTag ct) theta_max r_max = inr f /\
    create_camera (CameraTag ct) f = inr cam /\
    theta_to_r cam theta_max = r_max /\
    (0 < r_max -> 0 < focal_length cam).
Proof.
  intros [H0 H1].
  pose proof (sin_pos_open theta_max H0 H1) as Hs.
  pose proof (sin_half_pos theta_max H0 H1) as Hsh.
  pose proof (tan_half_pos theta_max H0 H1) as Hth.
  destruct ct; simpl; eexists; eexists;
    (split; [reflexivity |]); (split; [reflexivity |]); simpl;
    unfold Equidistant_f_from_theta_and_r, Equisolid_f_from_theta_and_r,
      Orthographic_f_from_theta_and_r, Stereographic_f_from_theta_and_r,
      np_sin, np_tan.
  - split; [field; lra |]. intros Hr.
    apply Rmult_lt_0_compat; [lra | apply Rinv_0_lt_compat; lra].
  - split; [field; lra |]. intros Hr.
    apply Rmult_lt_0_compat; [lra | apply Rinv_0_lt_compat; lra].
  - split; [field; lra |]. intros Hr.
    apply Rmult_lt_0_compat; [lra | apply Rinv_0_lt_compat; lra].
  - split; [field; lra |]. intros Hr.
    apply Rmult_lt_0_compat; [lra | apply Rinv_0_lt_compat; lra].
Qed.

Lemma C4_witness :
  0 < PI / 2 < PI /\
  exists f cam,
    f_from_theta_and_r (CameraTag ORTHOGRAPHIC) (PI / 2) 256 = inr f /\
    create_camera (CameraTag ORTHOGRAPHIC) f = inr cam /\
    theta_to_r cam (PI / 2) = 256 /\
    (0 < 256 -> 0 < focal_length cam).
Proof.
  pose proof PI_pos.
  split; [lra |].
  apply (C4_focal_from_extremes_reproduces_r_max ORTHOGRAPHIC (PI / 2) 256).
  lra.
Defined.

(** C5: for every camera variant with a positive focal length, the inverse
    mapping undoes the forward mapping at every angle of [[0, PI/2)], the
    radii of these angles lie in [[0, theta_to_r (PI/2))], and the forward
    mapping undoes the inverse mapping at every radius of that range. *)
Theorem C5_round_trip (cam : FisheyeCamera) (theta r : R) :
  0 < focal_length cam ->
  0 <= theta < PI / 2 ->
  0 <= r < theta_to_r cam (PI / 2) ->
  r_to_theta cam (theta_to_r cam theta) = theta /\
  0 <= theta_to_r cam theta < theta_to_r cam (PI / 2) /\
  theta_to_r cam (r_to_theta cam r) = r.
Proof.
  intros Hf Ht Hr. split; [| split].
  - apply r_to_theta_theta_to_r; assumption.
  - apply theta_to_r_range; assumption.
  - apply theta_to_r_r_to_theta; assumption.
Qed.

Lemma C5_witness :
  r_to_theta (EquisolidCamera 2) (theta_to_r (EquisolidCamera 2) (PI / 4))
    = PI / 4 /\
  0 <= theta_to_r (EquisolidCamera 2) (PI / 4)
    < theta_to_r (EquisolidCamera 2) (PI / 2) /\
  theta_to_r (EquisolidCamera 2) (r_to_theta (EquisolidCamera 2) 0) = 0.
Proof.
  pose proof PI_pos. pose proof sin_PI4_pos.
  apply (C5_round_trip (EquisolidCamera 2) (PI / 4) 0).
  - simpl. lra.
  - lra.
  - simpl. unfold np_sin. replace (PI / 2 / 2) with (PI / 4) by lra. lra.
Defined.

(** C9: with a positive focal length the forward mapping of every variant
    is strictly increasing on [[0, PI/2)].  For the orthographic variant the
    interval cannot be extended: on every [[0, b)] with [b > PI/2] two
    angles in increasing order have radii that are not, and between [PI/2]
    and [PI] the inverse mapping returns [PI - theta] instead of [theta]. *)
Theorem C9_theta_to_r_strictly_increasing :
  (forall (cam : FisheyeCamera) (theta1 theta2 : R),
     0 < focal_length cam ->
     0 <= theta1 -> theta1 < theta2 -> theta2 < PI / 2 ->
     theta_to_r cam theta1 < theta_to_r cam theta2) /\
  (forall f b : R,
     0 < f -> PI / 2 < b ->
     exists theta1 theta2,
       0 <= theta1 /\ theta1 < theta2 /\ theta2 < b /\
       theta_to_r (OrthographicCamera f) theta2
         <= theta_to_r (OrthographicCamera f) theta1) /\
  (forall f theta : R,
     0 < f -> PI / 2 < theta <= PI ->
     r_to_theta (OrthographicCamera f)
       (theta_to_r (OrthographicCamera f) theta) = PI - theta).
Proof.
  split; [| split].
  - intros cam t1 t2 Hf H1 H12 H2.
    apply theta_to_r_increasing_closed; lra.
  - intros f b Hf Hb. pose proof PI_pos as HPI.
    set (e := Rmin (b - PI / 2) (PI / 2) / 2).
    assert (He : 0 < e /\ e < b - PI / 2 /\ e < PI / 2).
    { unfold e. unfold Rmin. destruct (Rle_dec (b - PI / 2) (PI / 2)); lra. }
    exists (PI / 2 - e), (PI / 2 + e).
    repeat split; try lra.
    rewrite orthographic_folds. lra.
  - intros f t Hf [H0 H1]. pose proof PI_pos as HPI.
    simpl. unfold np_sin, np_arcsin.
    replace (f * sin t / f) with (sin t) by (field; lra).
    apply asin_sin_beyond. lra.
Qed.

Lemma C9_witness :
  theta_to_r (StereographicCamera 3) 0
    < theta_to_r (StereographicCamera 3) (PI / 4).
Proof.
  pose proof PI_pos.
  apply (proj1 C9_theta_to_r_strictly_increasing
           (StereographicCamera 3) 0 (PI / 4)); simpl; lra.
Defined.

(** ** Arrays: element-wise operations *)

Section ArrayLemmas.
Context {A B C : Type}.

Lemma zip_with_nil_r (f : A -> B -> C) (a : list A) : zip_with f a [] = [].
Proof. destruct a; reflexivity. Qed.

Lemma zip_with_length (f : A -> B -> C) (a : list A) (b : list B) :
  length (zip_with f a b) = Nat.min (length a) (length b).
Proof.
  revert b. induction a as [| u a IH]; intros [| v b]; simpl; auto.
Qed.

Lemma zip_with_nth (f : A -> B -> C) (a : list A) (b : list B)
  (i : nat) (da : A) (db : B) (dc : C) :
  (i < length a)%nat -> (i < length b)%nat ->
  nth i (zip_with f a b) dc = f (nth i a da) (nth i b db).
Proof.
  revert b i. induction a as [| u a IH]; intros [| v b] i Ha Hb;
    simpl in *; try lia.
  destruct i as [| i]; [reflexivity |]. apply IH; lia.
Qed.

Lemma zip_with_app (f : A -> B -> C) (a1 a2 : list A) (b1 b2 : list B) :
  length a1 = length b1 ->
  zip_with f (a1 ++ a2) (b1 ++ b2) = zip_with f a1 b1 ++ zip_with f a2 b2.
Proof.
  revert b1. induction a1 as [| u a1 IH]; intros [| v b1] H;
    simpl in *; try discriminate; [reflexivity |].
  f_equal. apply IH. lia.
Qed.

Lemma np_select_length (mask : list bool) (a : list A) :
  length mask = length a ->
  length (np_select mask a) = count_true mask.
Proof.
  unfold count_true. revert a.
  induction mask as [| m mask IH]; intros [| v a] H; simpl in *;
    try discriminate; [reflexivity |].
  destruct m; simpl; rewrite IH by lia; reflexivity.
Qed.

Lemma np_select_map (f : A -> B) (mask : list bool) (a : list A) :
  np_select mask (map f a) = map f (np_select mask a).
Proof.
  revert a. induction mask as [| m mask IH]; intros [| v a]; simpl;
    try reflexivity.
  - destruct m; reflexivity.
  - destruct m; simpl; rewrite IH; reflexivity.
Qed.

Lemma np_select_zip_with (f : A -> B -> C) (mask : list bool)
  (a : list A) (b : list B) :
  np_select mask (zip_with f a b)
  = zip_with f (np_select mask a) (np_select mask b).
Proof.
  revert a b. induction mask as [| m mask IH]; intros [| u a] [| v b];
    simpl; try reflexivity.
  - destruct m; reflexivity.
  - destruct m; reflexivity.
  - destruct m; simpl; [reflexivity | symmetry; apply zip_with_nil_r].
  - destruct m; simpl; rewrite IH; reflexivity.
Qed.

Lemma np_put_length (mask : list bool) (base vals : list A) :
  length mask = length base ->
  length (np_put mask base vals) = length mask.
Proof.
  revert base vals.
  induction mask as [| m mask IH]; intros [| b base] vals H; simpl in *;
    try discriminate; [reflexivity |].
  destruct m; [destruct vals |]; simpl; rewrite IH by lia; reflexivity.
Qed.

(** Assigning through a mask what the same mask selects: a selected
    position takes the value of [full], the others keep [base]. *)
Lemma np_put_select_nth (mask : list bool) (base full : list A)
  (i : nat) (d : A) :
  length mask = length base -> length mask = length full ->
  (i < length mask)%nat ->
  nth i (np_put mask base (np_select mask full)) d
  = if nth i mask false then nth i full d else nth i base d.
Proof.
  revert base full i.
  induction mask as [| m mask IH]; intros [| b base] [| v full] i Hb Hf Hi;
    simpl in *; try discriminate; try lia.
  destruct m; simpl.
  - destruct i as [| i]; [reflexivity |]. apply IH; lia.
  - destruct i as [| i]; [reflexivity |]. apply IH; lia.
Qed.
End ArrayLemmas.

Lemma np_select_nonzero (row : list R) :
  Forall (fun d => d <> 0) (np_select (map (fun d => Rneqb d 0) row) row).
Proof.
  induction row as [| d row IH]; simpl; [constructor |].
  unfold Rneqb at 1. destruct (Req_dec_T d 0) as [E | N].
  - exact IH.
  - constructor; assumption.
Qed.

(** ** Arrays: shapes *)

Lemma same_shape_length {A B : Type} (a : array A) (b : array B) :
  same_shape a b -> length a = length b.
Proof. intros H. induction H; simpl; congruence. Qed.

Lemma same_shape_row {A B : Type} (a : array A) (b : array B) (j : nat) :
  same_shape a b -> length (nth j a []) = length (nth j b []).
Proof.
  intros H. revert j. induction H; intros [| j]; simpl; auto.
Qed.

Lemma same_shape_refl {A : Type} (a : array A) : same_shape a a.
Proof. induction a; constructor; auto. Qed.

Lemma same_shape_sym {A B : Type} (a : array A) (b : array B) :
  same_shape a b -> same_shape b a.
Proof. intros H. induction H; constructor; auto. Qed.

Lemma same_shape_trans {A B C : Type}
  (a : array A) (b : array B) (c : array C) :
  same_shape a b -> same_shape b c -> same_shape a c.
Proof.
  intros H. revert c.
  induction H as [| r s a b Hrs H IH]; intros c Hc; inversion Hc; subst.
  - constructor.
  - constructor; [congruence | apply IH; assumption].
Qed.

Lemma same_shape_map2d {A B : Type} (f : A -> B) (a : array A) :
  same_shape a (map2d f a).
Proof.
  induction a as [| row a IH]; simpl; constructor; auto.
  symmetry. apply length_map.
Qed.

Lemma same_shape_zip2d {A B C : Type} (f : A -> B -> C)
  (a : array A) (b : array B) :
  same_shape a b -> same_shape a (zip2d f a b).
Proof.
  intros H. induction H as [| r s a b Hrs H IH]; simpl; constructor; auto.
  rewrite zip_with_length. lia.
Qed.

Lemma same_shape_np_put2 {A : Type} (mask : array bool) (base : array A)
  (vals : list A) :
  same_shape mask base -> same_shape mask (np_put2 mask base vals).
Proof.
  intros H. revert vals.
  induction H as [| mrow brow mask base Hrow H IH]; intros vals; simpl.
  - constructor.
  - constructor; [| apply IH].
    symmetry. apply np_put_length. assumption.
Qed.

(** ** Arrays: reading one element *)

Lemma get2_map2d {A B : Type} (f : A -> B) (a : array A) (j i : nat)
  (d : A) (d' : B) :
  (j < length a)%nat -> (i < length (nth j a []))%nat ->
  get2 d' (map2d f a) j i = f (get2 d a j i).
Proof.
  intros Hj Hi. unfold get2, map2d.
  change (@nil B) with (map f (@nil A)). rewrite map_nth.
  rewrite (nth_indep _ d' (f d)) by (rewrite length_map; exact Hi).
  apply map_nth.
Qed.

Lemma get2_zip2d {A B C : Type} (f : A -> B -> C) (a : array A) (b : array B)
  (j i : nat) (da : A) (db : B) (dc : C) :
  same_shape a b ->
  (j < length a)%nat -> (i < length (nth j a []))%nat ->
  get2 dc (zip2d f a b) j i = f (get2 da a j i) (get2 db b j i).
Proof.
  intros Hs Hj Hi. unfold get2, zip2d.
  pose proof (same_shape_length _ _ Hs) as Hl.
  pose proof (same_shape_row _ _ j Hs) as Hr.
  rewrite (zip_with_nth (zip_with f) a b j [] [] []) by lia.
  apply zip_with_nth; lia.
Qed.

Lemma np_select2_map2d {A B : Type} (f : A -> B) (mask : array bool)
  (a : array A) :
  np_select2 mask (map2d f a) = map f (np_select2 mask a).
Proof.
  unfold np_select2, map2d. revert a.
  induction mask as [| mrow mask IH]; intros [| row a]; simpl;
    try reflexivity.
  rewrite map_app, IH, np_select_map. reflexivity.
Qed.

Lemma np_select2_zip2d {A B C : Type} (f : A -> B -> C) (mask : array bool)
  (a : array A) (b : array B) :
  same_shape mask a -> same_shape mask b ->
  np_select2 mask (zip2d f a b)
  = zip_with f (np_select2 mask a) (np_select2 mask b).
Proof.
  unfold np_select2, zip2d. intros Ha. revert b.
  induction Ha as [| mrow arow mask a Hrow Ha IH]; intros b Hb;
    inversion Hb as [| mrow' brow mask' b' Hrow' Hb' E1 E2]; subst; simpl.
  - reflexivity.
  - rewrite zip_with_app.
    + rewrite IH by assumption. rewrite np_select_zip_with. reflexivity.
    + rewrite !np_select_length by assumption. reflexivity.
Qed.

Lemma firstn_length_app {A : Type} (l1 l2 : list A) :
  firstn (length l1) (l1 ++ l2) = l1.
Proof.
  induction l1 as [| a l1 IH]; simpl; [reflexivity | rewrite IH; reflexivity].
Qed.

Lemma skipn_length_app {A : Type} (l1 l2 : list A) :
  skipn (length l1) (l1 ++ l2) = l2.
Proof.
  induction l1 as [| a l1 IH]; simpl; [reflexivity | exact IH].
Qed.

Lemma np_put2_select2_get2 {A : Type} (mask : array bool)
  (base full : array A) (j i : nat) (d : A) :
  same_shape mask base -> same_shape mask full ->
  (j < length mask)%nat -> (i < length (nth j mask []))%nat ->
  get2 d (np_put2 mask base (np_select2 mask full)) j i
  = if get2 false mask j i then get2 d full j i else get2 d base j i.
Proof.
  unfold np_select2, get2. intros Hb. revert full j.
  induction Hb as [| mrow brow mask base Hrow Hb IH]; intros full j Hf Hj Hi;
    inversion Hf as [| mrow' frow mask' full' Hrow' Hf' E1 E2]; subst;
    simpl in *; [lia |].
  assert (Hn : length (np_select mrow frow) = count_true mrow)
    by (apply np_select_length; assumption).
  rewrite <- Hn, firstn_length_app, skipn_length_app.
  destruct j as [| j].
  - apply np_put_select_nth; assumption.
  - apply IH; [assumption | lia | assumption].
Qed.

Lemma np_select2_nonzero (a : array R) :
  Forall (fun d => d <> 0) (np_select2 (nonzero_mask a) a).
Proof.
  unfold np_select2, nonzero_mask, map2d.
  induction a as [| row a IH]; simpl; [constructor |].
  apply Forall_app. split; [apply np_select_nonzero | exact IH].
Qed.

Lemma same_shape_map2d_r {A B C : Type} (f : B -> C) (x : array A)
  (a : array B) :
  same_shape x a -> same_shape x (map2d f a).
Proof.
  intros H. eapply same_shape_trans; [exact H | apply same_shape_map2d].
Qed.

Lemma same_shape_zip2d_r {A B C D : Type} (f : B -> C -> D) (x : array A)
  (a : array B) (b : array C) :
  same_shape x a -> same_shape x b -> same_shape x (zip2d f a b).
Proof.
  intros Ha Hb. eapply same_shape_trans; [exact Ha |].
  apply same_shape_zip2d.
  eapply same_shape_trans; [apply same_shape_sym; exact Ha | exact Hb].
Qed.

Lemma same_shape_via {A B C : Type} (x : array A) (a : array B)
  (b : array C) :
  same_shape x a -> same_shape x b -> same_shape a b.
Proof.
  intros Ha Hb. eapply same_shape_trans; [apply same_shape_sym |]; eassumption.
Qed.

Create HintDb shape.
#[local] Hint Resolve same_shape_refl same_shape_map2d_r same_shape_zip2d_r
  : shape.

Lemma same_shape_np_put2_r {A B : Type} (x : array A) (mask : array bool)
  (base : array B) (vals : list B) :
  same_shape x mask -> same_shape x base ->
  same_shape x (np_put2 mask base vals).
Proof.
  intros Hm Hb. eapply same_shape_trans; [exact Hm |].
  apply same_shape_np_put2. eapply same_shape_via; eassumption.
Qed.

(** ** Exceptions *)

Lemma bind_inr {A B : Type} (a : A) (k : A -> result B) :
  bind (inr a) k = k a.
Proof. reflexivity. Qed.

Lemma bind_inl {A B : Type} (e : PyExn) (k : A -> result B) :
  bind (inl e) k = inl e.
Proof. reflexivity. Qed.

(** ** The factory *)

Lemma f_from_theta_and_r_known (ct : CameraType) (theta r : R) :
  exists f, f_from_theta_and_r (CameraTag ct) theta r = inr f.
Proof. destruct ct; simpl; eexists; reflexivity. Qed.

Lemma create_camera_known (ct : CameraType) (f : R) :
  exists cam, create_camera (CameraTag ct) f = inr cam.
Proof. destruct ct; simpl; eexists; reflexivity. Qed.

(** ** The masked assignment of [init_undistort_map], one grid point at a
    time *)

Lemma masked_values_get2 (D P V : array R) (c : R) (j i : nat) :
  same_shape D P -> same_shape D V ->
  (j < length D)%nat -> (i < length (nth j D []))%nat ->
  get2 0
    (np_put2 (nonzero_mask D) (np_zeros_like V)
       (map (fun v => v + c)
          (zip_with Rmult
             (zip_with Rdiv (np_select2 (nonzero_mask D) P)
                (np_select2 (nonzero_mask D) D))
             (np_select2 (nonzero_mask D) V)))) j i
  = if Rneqb (get2 0 D j i) 0
    then get2 0 P j i / get2 0 D j i * get2 0 V j i + c
    else 0.
Proof.
  intros HP HV Hj Hi.
  assert (HM : same_shape D (nonzero_mask D))
    by (unfold nonzero_mask; auto with shape).
  assert (HMD : same_shape (nonzero_mask D) D) by (apply same_shape_sym, HM).
  assert (HMP : same_shape (nonzero_mask D) P)
    by (eapply same_shape_via; eassumption).
  assert (HMV : same_shape (nonzero_mask D) V)
    by (eapply same_shape_via; eassumption).
  rewrite <- (np_select2_zip2d Rdiv) by assumption.
  rewrite <- (np_select2_zip2d Rmult);
    [| eapply same_shape_via; [exact HM | auto with shape] | assumption].
  rewrite <- np_select2_map2d.
  pose proof (same_shape_length _ _ HM) as HlM.
  pose proof (same_shape_row _ _ j HM) as HrM.
  pose proof (same_shape_length _ _ HP) as HlP.
  pose proof (same_shape_row _ _ j HP) as HrP.
  pose proof (same_shape_length _ _ HV) as HlV.
  pose proof (same_shape_row _ _ j HV) as HrV.
  rewrite np_put2_select2_get2; try lia.
  - unfold nonzero_mask at 1.
    rewrite (get2_map2d _ D j i 0 false) by assumption.
    destruct (Rneqb (get2 0 D j i) 0).
    + assert (HPD : same_shape P D) by (apply same_shape_sym, HP).
      assert (HPV : same_shape (zip2d Rdiv P D) V).
      { eapply same_shape_via; [| exact HV]. auto with shape. }
      assert (Hz : same_shape D (zip2d Rmult (zip2d Rdiv P D) V))
        by auto with shape.
      pose proof (same_shape_length _ _ Hz) as Hlz.
      pose proof (same_shape_row _ _ j Hz) as Hrz.
      assert (Hq : same_shape D (zip2d Rdiv P D)) by auto with shape.
      pose proof (same_shape_length _ _ Hq) as Hlq.
      pose proof (same_shape_row _ _ j Hq) as Hrq.
      rewrite (get2_map2d _ _ j i 0 0) by lia.
      rewrite (get2_zip2d Rmult _ _ j i 0 0 0) by (assumption || lia).
      rewrite (get2_zip2d Rdiv _ _ j i 0 0 0) by (assumption || lia).
      reflexivity.
    + unfold np_zeros_like. rewrite (get2_map2d _ V j i 0 0) by lia.
      reflexivity.
  - eapply same_shape_via; [exact HM |]. unfold np_zeros_like.
    auto with shape.
  - eapply same_shape_via; [exact HM |]. auto with shape.
Qed.

Lemma distorted_radius_shape (x y : array Z) :
  same_shape x y -> same_shape x (distorted_radius (x, y)).
Proof.
  intros H. unfold distorted_radius; simpl. auto with shape.
Qed.

Lemma distorted_radius_get2 (x y : array Z) (j i : nat) :
  same_shape x y ->
  (j < length x)%nat -> (i < length (nth j x []))%nat ->
  get2 0 (distorted_radius (x, y)) j i
  = np_hypot (IZR (get2 0%Z x j i)) (IZR (get2 0%Z y j i)).
Proof.
  intros H Hj Hi. unfold distorted_radius; simpl.
  pose proof (same_shape_length _ _ H) as Hl.
  pose proof (same_shape_row _ _ j H) as Hr.
  pose proof (same_shape_length _ _ (same_shape_map2d IZR x)) as Hlx.
  pose proof (same_shape_row _ _ j (same_shape_map2d IZR x)) as Hrx.
  rewrite (get2_zip2d np_hypot _ _ j i 0 0 0).
  - rewrite (get2_map2d IZR x j i 0%Z 0) by assumption.
    rewrite (get2_map2d IZR y j i 0%Z 0) by lia.
    reflexivity.
  - eapply same_shape_via; [apply same_shape_map2d |]. auto with shape.
  - lia.
  - lia.
Qed.

(** What [init_undistort_map] returns for a known camera type, read one
    grid point at a time. *)
Lemma init_undistort_map_cells (self : FisheyeToPerspective)
  (x y : array Z) (pfocal dim : R) (ct : CameraType) :
  _camera_type self = CameraTag ct ->
  same_shape x y ->
  exists f cam mx my,
    f_from_theta_and_r (CameraTag ct) (np_deg2rad (_rfov self)) (dim / 2)
      = inr f /\
    create_camera (CameraTag ct) f = inr cam /\
    init_undistort_map self (x, y) pfocal dim = inr (mx, my) /\
    same_shape x mx /\ same_shape x my /\
    forall j i : nat,
      (j < length x)%nat -> (i < length (nth j x []))%nat ->
      let xv := IZR (get2 0%Z x j i) in
      let yv := IZR (get2 0%Z y j i) in
      let d := np_hypot xv yv in
      get2 0 mx j i
        = (if Rneqb d 0
           then theta_to_r cam (np_arctan (d / pfocal)) / d * xv
                + IZR (_x_center self)
           else 0) /\
      get2 0 my j i
        = (if Rneqb d 0
           then theta_to_r cam (np_arctan (d / pfocal)) / d * yv
                + IZR (_y_center self)
           else 0).
Proof.
  intros Hct Hxy.
  destruct (f_from_theta_and_r_known ct (np_deg2rad (_rfov self)) (dim / 2))
    as [f Hf].
  destruct (create_camera_known ct f) as [cam Hcam].
  exists f, cam. unfold init_undistort_map.
  rewrite Hct, Hf, bind_inr, Hcam, bind_inr. unfold ret. simpl fst. simpl snd.
  set (D := distorted_radius (x, y)).
  set (P := map2d (theta_to_r cam)
              (map2d (fun d => np_arctan (d / pfocal)) D)).
  assert (HD : same_shape x D) by (apply distorted_radius_shape, Hxy).
  assert (HP : same_shape x P) by (unfold P; auto with shape).
  assert (HX : same_shape x (map2d IZR x)) by auto with shape.
  assert (HY : same_shape x (map2d IZR y)) by auto with shape.
  assert (HM : same_shape x (nonzero_mask D))
    by (unfold nonzero_mask; auto with shape).
  eexists; eexists. split; [reflexivity |]. split; [reflexivity |].
  split; [reflexivity |].
  split; [| split].
  - apply same_shape_np_put2_r; [assumption |].
    unfold np_zeros_like. auto with shape.
  - apply same_shape_np_put2_r; [assumption |].
    unfold np_zeros_like. auto with shape.
  - intros j i Hj Hi.
    set (d := np_hypot (IZR (get2 0%Z x j i)) (IZR (get2 0%Z y j i))).
    pose proof (same_shape_length _ _ HD) as HlD.
    pose proof (same_shape_row _ _ j HD) as HrD.
    pose proof (same_shape_length _ _ Hxy) as Hly.
    pose proof (same_shape_row _ _ j Hxy) as Hry.
    assert (Ed : get2 0 D j i = d)
      by (apply distorted_radius_get2; assumption).
    assert (EP : get2 0 P j i = theta_to_r cam (np_arctan (d / pfocal))).
    { unfold P.
      pose proof (same_shape_length _ _
        (same_shape_map2d (fun d => np_arctan (d / pfocal)) D)) as Hl1.
      pose proof (same_shape_row _ _ j
        (same_shape_map2d (fun d => np_arctan (d / pfocal)) D)) as Hr1.
      rewrite (get2_map2d _ _ j i 0 0) by lia.
      rewrite (get2_map2d _ D j i 0 0) by lia.
      rewrite Ed. reflexivity. }
    split.
    + rewrite masked_values_get2; try lia;
        try (eapply same_shape_via; eassumption).
      rewrite Ed, EP.
      rewrite (get2_map2d IZR x j i 0%Z 0) by assumption.
      reflexivity.
    + rewrite masked_values_get2; try lia;
        try (eapply same_shape_via; eassumption).
      rewrite Ed, EP.
      rewrite (get2_map2d IZR y j i 0%Z 0) by lia.
      reflexivity.
Qed.

(** ** Shapes given by a height and a width *)

Lemma has_shape_row {A : Type} (h w : nat) (a : array A) (j : nat) :
  has_shape h w a -> (j < h)%nat -> length (nth j a []) = w.
Proof.
  intros [Hl Hr] Hj. subst h.
  apply (proj1 (Forall_nth (fun row => length row = w) a) Hr). exact Hj.
Qed.

Lemma has_shape_hd {A : Type} (h w : nat) (a : array A) :
  has_shape h w a -> (0 < h)%nat -> length (hd [] a) = w.
Proof.
  intros H Hh. pose proof (has_shape_row h w a 0 H Hh) as E.
  destruct a; exact E.
Qed.

Lemma has_shape_same {A B : Type} (h w : nat) (a : array A) (b : array B) :
  has_shape h w a -> has_shape h w b -> same_shape a b.
Proof.
  intros [Ha Fa] [Hb Fb]. subst h. revert b Hb Fb.
  induction Fa as [| r a Hr Fa IH]; intros [| s b] Hb Fb; simpl in *;
    try discriminate; constructor.
  - inversion Fb; subst. congruence.
  - apply IH; [lia | inversion Fb; assumption].
Qed.

Lemma same_shape_has_shape {A B : Type} (h w : nat) (a : array A)
  (b : array B) :
  has_shape h w a -> same_shape a b -> has_shape h w b.
Proof.
  intros [Ha Fa] Hs. split.
  - rewrite <- (same_shape_length _ _ Hs). exact Ha.
  - clear Ha. induction Hs as [| r s a b Hrs Hs IH]; constructor.
    + inversion Fa; subst. congruence.
    + apply IH. inversion Fa; assumption.
Qed.

(** ** The pixel grid *)

Lemma np_arange_length (n : Z) : length (np_arange n) = Z.to_nat n.
Proof. unfold np_arange. rewrite length_map, length_seq. reflexivity. Qed.

Lemma np_arange_nth (n : Z) (i : nat) :
  (i < Z.to_nat n)%nat -> nth i (np_arange n) 0%Z = Z.of_nat i.
Proof.
  intros Hi. unfold np_arange.
  change 0%Z with (Z.of_nat 0). rewrite map_nth.
  rewrite seq_nth by exact Hi. reflexivity.
Qed.

Lemma Forall_map_const {A B : Type} (P : B -> Prop) (v : B) (l : list A) :
  P v -> Forall P (map (fun _ => v) l).
Proof. intros H. induction l; simpl; constructor; auto. Qed.

Lemma generate_meshgrid_shape (self : FisheyeToPerspective) :
  has_shape (Z.to_nat (_height self)) (Z.to_nat (_width self))
    (fst (generate_meshgrid self)) /\
  has_shape (Z.to_nat (_height self)) (Z.to_nat (_width self))
    (snd (generate_meshgrid self)).
Proof.
  unfold generate_meshgrid, np_meshgrid, map2d, has_shape; simpl.
  rewrite !length_map, !np_arange_length.
  split; (split; [reflexivity |]).
  - apply Forall_map, Forall_map, Forall_forall. intros yj _.
    rewrite length_map. apply np_arange_length.
  - apply Forall_map, Forall_map, Forall_forall. intros yj _.
    rewrite !length_map. apply np_arange_length.
Qed.

Lemma generate_meshgrid_same_shape (self : FisheyeToPerspective) :
  same_shape (fst (generate_meshgrid self)) (snd (generate_meshgrid self)).
Proof.
  destruct (generate_meshgrid_shape self) as [Hx Hy].
  eapply has_shape_same; eassumption.
Qed.

(** Grid point [(j, i)] holds [x = i - x_center] and [y = j - y_center]. *)
Lemma generate_meshgrid_get2 (self : FisheyeToPerspective) (j i : nat) :
  (j < Z.to_nat (_height self))%nat -> (i < Z.to_nat (_width self))%nat ->
  get2 0%Z (fst (generate_meshgrid self)) j i
    = (Z.of_nat i - _x_center self)%Z /\
  get2 0%Z (snd (generate_meshgrid self)) j i
    = (Z.of_nat j - _y_center self)%Z.
Proof.
  intros Hj Hi.
  unfold generate_meshgrid, np_meshgrid; simpl.
  set (xs := np_arange (_width self)).
  set (ys := np_arange (_height self)).
  assert (Hxs : length xs = Z.to_nat (_width self))
    by apply np_arange_length.
  assert (Hys : length ys = Z.to_nat (_height self))
    by apply np_arange_length.
  assert (Rx : nth j (map (fun _ : Z => xs) ys) [] = xs).
  { rewrite (nth_indep _ [] ((fun _ : Z => xs) 0%Z))
      by (rewrite length_map; lia).
    exact (map_nth (fun _ : Z => xs) ys 0%Z j). }
  assert (Ry : nth j (map (fun yj : Z => map (fun _ : Z => yj) xs) ys) []
               = map (fun _ : Z => nth j ys 0%Z) xs).
  { rewrite (nth_indep _ [] ((fun yj : Z => map (fun _ : Z => yj) xs) 0%Z))
      by (rewrite length_map; lia).
    exact (map_nth (fun yj : Z => map (fun _ : Z => yj) xs) ys 0%Z j). }
  split.
  - rewrite (get2_map2d _ _ j i 0%Z 0%Z).
    + unfold get2. rewrite Rx. unfold xs. rewrite np_arange_nth by exact Hi.
      reflexivity.
    + rewrite length_map. lia.
    + rewrite Rx. lia.
  - rewrite (get2_map2d _ _ j i 0%Z 0%Z).
    + unfold get2. rewrite Ry.
      rewrite (nth_indep _ 0%Z ((fun _ : Z => nth j ys 0%Z) 0%Z))
        by (rewrite length_map; lia).
      rewrite (map_nth (fun _ : Z => nth j ys 0%Z) xs 0%Z i).
      unfold ys. rewrite np_arange_nth by exact Hj. reflexivity.
    + rewrite length_map. lia.
    + rewrite Ry, length_map. lia.
Qed.

(** ** Slices *)

Lemma py_slice_window {A : Type} (lo n : Z) (l : list A) :
  (0 <= lo)%Z -> (0 <= n)%Z -> (lo + n <= Z.of_nat (length l))%Z ->
  py_slice lo (lo + n) l = firstn (Z.to_nat n) (skipn (Z.to_nat lo) l).
Proof.
  intros Hlo Hn Hlen. unfold py_slice, py_slice_bound.
  destruct (Z.ltb_spec lo 0) as [Hneg | _]; [lia |].
  destruct (Z.ltb_spec (lo + n) 0) as [Hneg | _]; [lia |].
  rewrite !Z.min_l by lia.
  replace (lo + n - lo)%Z with n by lia. reflexivity.
Qed.

Lemma window_length {A : Type} (lo n : nat) (l : list A) :
  (lo + n <= length l)%nat -> length (firstn n (skipn lo l)) = n.
Proof.
  intros H. rewrite length_firstn, length_skipn. lia.
Qed.

Lemma window_nth {A : Type} (lo n k : nat) (l : list A) (d : A) :
  (k < n)%nat -> nth k (firstn n (skipn lo l)) d = nth (lo + k) l d.
Proof.
  intros H. rewrite nth_firstn.
  destruct (Nat.ltb_spec k n) as [_ | Hge]; [| lia].
  apply nth_skipn.
Qed.

Lemma Forall_window {A : Type} (P : A -> Prop) (lo n : nat) (l : list A) :
  Forall P l -> Forall P (firstn n (skipn lo l)).
Proof.
  intros H.
  assert (Hs : Forall P (skipn lo l)).
  { clear n. revert lo. induction H as [| v l Hv H IH]; intros [| lo]; simpl;
      try constructor; auto. }
  clear H. revert n. induction Hs as [| v t Hv Hs IH]; intros [| n]; simpl;
    constructor; auto.
Qed.

(** The centred window that [read_image] cuts out of an [h] by [w] image,
    with [D = min(w, h)] and the two offsets of the code. *)
Lemma py_slice2_crop {A : Type} (h w : nat) (oy ox D : Z) (a : array A) :
  has_shape h w a ->
  (0 <= oy)%Z -> (0 <= ox)%Z -> (0 <= D)%Z ->
  (oy + D <= Z.of_nat h)%Z -> (ox + D <= Z.of_nat w)%Z ->
  has_shape (Z.to_nat D) (Z.to_nat D)
    (py_slice2 oy (oy + D) ox (ox + D) a) /\
  forall (j i : nat) (d : A),
    (j < Z.to_nat D)%nat -> (i < Z.to_nat D)%nat ->
    get2 d (py_slice2 oy (oy + D) ox (ox + D) a) j i
    = get2 d a (Z.to_nat oy + j) (Z.to_nat ox + i).
Proof.
  intros [Hl Hr] Hoy Hox HD Hh Hw. unfold py_slice2.
  rewrite (py_slice_window oy D a) by lia.
  assert (Hrows : Forall (fun row => length row = w)
                    (firstn (Z.to_nat D) (skipn (Z.to_nat oy) a)))
    by (apply Forall_window; exact Hr).
  split.
  - split.
    + rewrite length_map. apply window_length. lia.
    + apply Forall_map. revert Hrows. apply Forall_impl. intros row Hrow.
      rewrite (py_slice_window ox D row) by lia.
      apply window_length. lia.
  - intros j i d Hj Hi. unfold get2.
    assert (Hjl : (j < length (firstn (Z.to_nat D)
                                 (skipn (Z.to_nat oy) a)))%nat)
      by (rewrite window_length; lia).
    rewrite (nth_indep _ [] (py_slice ox (ox + D) [])) by
      (rewrite length_map; exact Hjl).
    rewrite map_nth.
    assert (Hrow : length (nth j (firstn (Z.to_nat D)
                                    (skipn (Z.to_nat oy) a)) []) = w)
      by (apply (proj1 (Forall_nth _ _) Hrows); exact Hjl).
    rewrite py_slice_window by lia.
    rewrite window_nth by exact Hi.
    rewrite window_nth by exact Hj. reflexivity.
Qed.

(** ** read_image and __init__ *)

Lemma crop_bounds (h w : Z) :
  (0 <= h)%Z -> (0 <= w)%Z ->
  let D := Z.min w h in
  (0 <= D)%Z /\
  (0 <= (w - D) / 2)%Z /\ (0 <= (h - D) / 2)%Z /\
  ((w - D) / 2 + D <= w)%Z /\ ((h - D) / 2 + D <= h)%Z.
Proof.
  intros Hh Hw D.
  assert (HD : (D <= w /\ D <= h /\ 0 <= D)%Z) by (unfold D; lia).
  assert (Hx : (0 <= (w - D) / 2 <= w - D)%Z).
  { split; [apply Z.div_pos; lia |].
    apply Z.div_le_upper_bound; lia. }
  assert (Hy : (0 <= (h - D) / 2 <= h - D)%Z).
  { split; [apply Z.div_pos; lia |].
    apply Z.div_le_upper_bound; lia. }
  lia.
Qed.

(** [read_image] on a file that exists and decodes to an [h] by [w] image
    with at least one pixel. *)
Lemma read_image_ok (env : Env) (image_file : string) (img : Image)
  (h w : nat) :
  os_path_exists env image_file = true ->
  cv2_imread env image_file = Some img ->
  has_shape h w img -> (0 < h)%nat -> (0 < w)%nat ->
  let D := Z.min (Z.of_nat w) (Z.of_nat h) in
  let offset_x := ((Z.of_nat w - D) / 2)%Z in
  let offset_y := ((Z.of_nat h - D) / 2)%Z in
  exists ia,
    read_image env image_file = inr ia /\
    ia_image ia
      = py_slice2 offset_y (offset_y + D) offset_x (offset_x + D) img /\
    has_shape (Z.to_nat D) (Z.to_nat D) (ia_image ia) /\
    ia_height ia = D /\ ia_width ia = D /\
    ia_x_center ia = ((D - 1) / 2)%Z /\ ia_y_center ia = ((D - 1) / 2)%Z /\
    forall (j i : nat) (d : Pixel),
      (j < Z.to_nat D)%nat -> (i < Z.to_nat D)%nat ->
      get2 d (ia_image ia) j i
      = get2 d img (Z.to_nat offset_y + j) (Z.to_nat offset_x + i).
Proof.
  intros Hex Hrd Hs Hh Hw D offset_x offset_y.
  destruct (crop_bounds (Z.of_nat h) (Z.of_nat w))
    as (HD & Hox & Hoy & Hbx & Hby);
    try lia.
  fold D in HD, Hox, Hoy, Hbx, Hby. fold offset_x in Hox, Hbx.
  fold offset_y in Hoy, Hby.
  assert (E0 : shape0 img = Z.of_nat h)
    by (unfold shape0; rewrite (proj1 Hs); reflexivity).
  assert (E1 : shape1 img = Z.of_nat w)
    by (unfold shape1; rewrite (has_shape_hd h w img Hs Hh); reflexivity).
  destruct (py_slice2_crop h w offset_y offset_x D img Hs Hoy Hox HD Hby Hbx)
    as [Hcs Hcg].
  assert (HDpos : (0 < Z.to_nat D)%nat) by (unfold D; lia).
  assert (C0 : shape0 (py_slice2 offset_y (offset_y + D) offset_x
                         (offset_x + D) img) = D).
  { unfold shape0. rewrite (proj1 Hcs). lia. }
  assert (C1 : shape1 (py_slice2 offset_y (offset_y + D) offset_x
                         (offset_x + D) img) = D).
  { unfold shape1. rewrite (has_shape_hd _ _ _ Hcs HDpos). lia. }
  unfold read_image. rewrite Hex, Hrd. simpl negb. cbv iota.
  rewrite E0, E1. fold D. fold offset_x. fold offset_y.
  rewrite C0, C1.
  eexists. split; [reflexivity |]. simpl.
  repeat split; try reflexivity; try assumption.
  - apply (proj1 Hcs).
  - apply (proj2 Hcs).
Qed.

Lemma init_inv (env : Env) (image_file : string) (fov perspective_fov : R)
  (camera_type format : PyTag) (output_shape : option (Z * Z))
  (self : FisheyeToPerspective) :
  init env image_file fov perspective_fov camera_type format output_shape
    = inr self ->
  exists ia,
    read_image env image_file = inr ia /\
    _fov self = fov /\ _rfov self = fov / 2 /\
    _perspective_fov self = perspective_fov /\
    _format self = format /\ _camera_type self = camera_type /\
    _output_shape self = output_shape /\
    image self = ia_image ia /\
    _height self = ia_height ia /\ _width self = ia_width ia /\
    _x_center self = ia_x_center ia /\ _y_center self = ia_y_center ia.
Proof.
  unfold init. destruct (read_image env image_file) as [e | ia].
  - rewrite bind_inl. discriminate.
  - rewrite bind_inr. unfold ret. intros E. injection E as <-.
    exists ia. simpl. repeat split; reflexivity.
Qed.

Lemma init_ok (env : Env) (image_file : string) (fov perspective_fov : R)
  (camera_type format : PyTag) (output_shape : option (Z * Z))
  (img : Image) (h w : nat) :
  os_path_exists env image_file = true ->
  cv2_imread env image_file = Some img ->
  has_shape h w img -> (0 < h)%nat -> (0 < w)%nat ->
  exists self,
    init env image_file fov perspective_fov camera_type format output_shape
      = inr self.
Proof.
  intros Hex Hrd Hs Hh Hw.
  destruct (read_image_ok env image_file img h w Hex Hrd Hs Hh Hw)
    as (ia & Hia & _).
  unfold init. rewrite Hia, bind_inr. eexists. reflexivity.
Qed.

(** ** The coordinate maps *)

Lemma get_perspective_width_known (self : FisheyeToPerspective)
  (fmt : FisheyeFormat) :
  _format self = FormatTag fmt ->
  exists dim, get_perspective_width self = inr dim.
Proof.
  intros H. unfold get_perspective_width. rewrite H.
  destruct fmt; eexists; reflexivity.
Qed.

(** With a known camera type and format, [init_undistort_map] returns on
    the pixel grid two fields with [_height] rows and [_width] columns;
    each grid point holds [0] where [distorted_r] is [0] and the radial
    rescaling elsewhere.  [undistort_maps] returns them, resized when an
    output shape is requested. *)
Lemma built_maps_cells (env : Env) (self : FisheyeToPerspective)
  (ct : CameraType) (fmt : FisheyeFormat) :
  _camera_type self = CameraTag ct ->
  _format self = FormatTag fmt ->
  exists dim f cam mx my,
    get_perspective_width self = inr dim /\
    f_from_theta_and_r (CameraTag ct) (np_deg2rad (_rfov self)) (dim / 2)
      = inr f /\
    create_camera (CameraTag ct) f = inr cam /\
    init_undistort_map self (generate_meshgrid self)
      (focal_length_from_fov (_perspective_fov self) dim) dim
      = inr (mx, my) /\
    undistort_maps env self
      = inr (match _output_shape self with
             | Some shape =>
                 (cv2_resize env mx shape, cv2_resize env my shape)
             | None => (mx, my)
             end) /\
    has_shape (Z.to_nat (_height self)) (Z.to_nat (_width self)) mx /\
    has_shape (Z.to_nat (_height self)) (Z.to_nat (_width self)) my /\
    forall j i : nat,
      (j < Z.to_nat (_height self))%nat ->
      (i < Z.to_nat (_width self))%nat ->
      let x := IZR (Z.of_nat i - _x_center self) in
      let y := IZR (Z.of_nat j - _y_center self) in
      let distorted_r := np_hypot x y in
      let pfocal := focal_length_from_fov (_perspective_fov self) dim in
      get2 0 mx j i
        = (if Rneqb distorted_r 0
           then theta_to_r cam (np_arctan (distorted_r / pfocal))
                / distorted_r * x + IZR (_x_center self)
           else 0) /\
      get2 0 my j i
        = (if Rneqb distorted_r 0
           then theta_to_r cam (np_arctan (distorted_r / pfocal))
                / distorted_r * y + IZR (_y_center self)
           else 0).
Proof.
  intros Hct Hfmt.
  destruct (get_perspective_width_known self fmt Hfmt) as [dim Hdim].
  destruct (generate_meshgrid_shape self) as [Hsx Hsy].
  pose proof (generate_meshgrid_same_shape self) as Hxy.
  pose proof (generate_meshgrid_get2 self) as Hgrid.
  unfold undistort_maps. rewrite Hdim, bind_inr.
  destruct (generate_meshgrid self) as [gx gy]. simpl in Hsx, Hsy, Hxy, Hgrid.
  destruct (init_undistort_map_cells self gx gy
              (focal_length_from_fov (_perspective_fov self) dim) dim ct
              Hct Hxy)
    as (f & cam & mx & my & Hf & Hcam & Hmap & Hmx & Hmy & Hcell).
  exists dim, f, cam, mx, my.
  split; [reflexivity |]. split; [exact Hf |]. split; [exact Hcam |].
  split; [exact Hmap |].
  split.
  { rewrite Hmap, bind_inr.
    destruct (_output_shape self); reflexivity. }
  split; [exact (same_shape_has_shape _ _ gx mx Hsx Hmx) |].
  split; [exact (same_shape_has_shape _ _ gx my Hsx Hmy) |].
  intros j i Hj Hi.
  assert (Hjl : (j < length gx)%nat) by (rewrite (proj1 Hsx); exact Hj).
  assert (Hil : (i < length (nth j gx []))%nat)
    by (rewrite (has_shape_row _ _ gx j Hsx Hj); exact Hi).
  destruct (Hgrid j i Hj Hi) as [Ex Ey].
  specialize (Hcell j i Hjl Hil). rewrite Ex, Ey in Hcell. exact Hcell.
Qed.

(** The same without a requested output shape. *)
Lemma undistort_maps_cells (env : Env) (self : FisheyeToPerspective)
  (ct : CameraType) (fmt : FisheyeFormat) :
  _camera_type self = CameraTag ct ->
  _format self = FormatTag fmt ->
  _output_shape self = None ->
  exists dim f cam mx my,
    get_perspective_width self = inr dim /\
    f_from_theta_and_r (CameraTag ct) (np_deg2rad (_rfov self)) (dim / 2)
      = inr f /\
    create_camera (CameraTag ct) f = inr cam /\
    undistort_maps env self = inr (mx, my) /\
    has_shape (Z.to_nat (_height self)) (Z.to_nat (_width self)) mx /\
    has_shape (Z.to_nat (_height self)) (Z.to_nat (_width self)) my /\
    forall j i : nat,
      (j < Z.to_nat (_height self))%nat ->
      (i < Z.to_nat (_width self))%nat ->
      let x := IZR (Z.of_nat i - _x_center self) in
      let y := IZR (Z.of_nat j - _y_center self) in
      let distorted_r := np_hypot x y in
      let pfocal := focal_length_from_fov (_perspective_fov self) dim in
      get2 0 mx j i
        = (if Rneqb distorted_r 0
           then theta_to_r cam (np_arctan (distorted_r / pfocal))
                / distorted_r * x + IZR (_x_center self)
           else 0) /\
      get2 0 my j i
        = (if Rneqb distorted_r 0
           then theta_to_r cam (np_arctan (distorted_r / pfocal))
                / distorted_r * y + IZR (_y_center self)
           else 0).
Proof.
  intros Hct Hfmt Hout.
  destruct (built_maps_cells env self ct fmt Hct Hfmt)
    as (dim & f & cam & mx & my & Hdim & Hf & Hcam & _ & Hmaps & Hmx & Hmy
        & Hcell).
  rewrite Hout in Hmaps.
  exists dim, f, cam, mx, my. repeat split; try assumption.
  - apply (proj1 Hmx).
  - apply (proj2 Hmx).
  - apply (proj1 Hmy).
  - apply (proj2 Hmy).
  - apply Hcell; assumption.
  - apply Hcell; assumption.
Qed.

(** ** The example inputs *)

Lemma blank_image_shape (h w : nat) : has_shape h w (blank_image h w).
Proof.
  unfold blank_image, has_shape. split.
  - apply repeat_length.
  - apply Forall_forall. intros row Hrow.
    apply repeat_spec in Hrow. subst row. apply repeat_length.
Qed.

Lemma init_blank (h w : nat) (image_file : string) (fov perspective_fov : R)
  (camera_type format : PyTag) (output_shape : option (Z * Z)) :
  (0 < h)%nat -> (0 < w)%nat ->
  exists self,
    init (env_with (blank_image h w)) image_file fov perspective_fov
      camera_type format output_shape = inr self.
Proof.
  intros Hh Hw.
  apply (init_ok (env_with (blank_image h w)) image_file fov perspective_fov
           camera_type format output_shape (blank_image h w) h w);
    try reflexivity; try assumption.
  apply blank_image_shape.
Qed.

(** ** The claims about the builder *)

(** C2: on an object built by [__init__] with one of the four camera types
    and one of the two formats, [__call__] builds the maps from
    [dim = get_perspective_width()], the fisheye focal length
    [f_from_theta_and_r(camera_type, deg2rad(fov / 2), dim / 2)] and
    [perspective_focal = dim / (2 * tan(radians(perspective_fov) / 2))]; at
    every grid point [(j, i)] with [x = i - x_center], [y = j - y_center]
    and [distorted_r = hypot(x, y) <> 0] the built maps hold
    [theta_to_r(arctan(distorted_r / perspective_focal)) / distorted_r * x
     + x_center] and the same with [y] and [y_center]; without a requested
    output shape the built maps are the maps handed to [cv2.remap]. *)
Theorem C2_map_radial_rescaling (env : Env) (image_file : string)
  (fov perspective_fov : R) (ct : CameraType) (fmt : FisheyeFormat)
  (output_shape : option (Z * Z)) (self : FisheyeToPerspective) :
  init env image_file fov perspective_fov (CameraTag ct) (FormatTag fmt)
    output_shape = inr self ->
  exists dim f cam map_x map_y,
    let perspective_focal :=
      dim / (2 * np_tan (np_radians perspective_fov / 2)) in
    get_perspective_width self = inr dim /\
    f_from_theta_and_r (CameraTag ct) (np_radians (fov / 2)) (dim / 2)
      = inr f /\
    create_camera (CameraTag ct) f = inr cam /\
    init_undistort_map self (generate_meshgrid self) perspective_focal dim
      = inr (map_x, map_y) /\
    (output_shape = None -> undistort_maps env self = inr (map_x, map_y)) /\
    forall j i : nat,
      (j < Z.to_nat (_height self))%nat ->
      (i < Z.to_nat (_width self))%nat ->
      let x := IZR (Z.of_nat i - _x_center self) in
      let y := IZR (Z.of_nat j - _y_center self) in
      let distorted_r := np_hypot x y in
      distorted_r <> 0 ->
      get2 0 map_x j i
        = theta_to_r cam (np_arctan (distorted_r / perspective_focal))
          / distorted_r * x + IZR (_x_center self) /\
      get2 0 map_y j i
        = theta_to_r cam (np_arctan (distorted_r / perspective_focal))
          / distorted_r * y + IZR (_y_center self).
Proof.
  intros Hinit.
  destruct (init_inv _ _ _ _ _ _ _ _ Hinit)
    as (ia & _ & _ & Hrfov & Hpfov & Hfmt & Hct & Hout & _).
  destruct (built_maps_cells env self ct fmt Hct Hfmt)
    as (dim & f & cam & mx & my & Hdim & Hf & Hcam & Hbuilt & Hmaps & _ & _
        & Hcell).
  exists dim, f, cam, mx, my. intros perspective_focal.
  rewrite Hrfov in Hf. rewrite Hpfov in Hbuilt, Hcell.
  unfold focal_length_from_fov in Hbuilt, Hcell.
  fold perspective_focal in Hbuilt, Hcell.
  split; [exact Hdim |]. split; [exact Hf |]. split; [exact Hcam |].
  split; [exact Hbuilt |].
  split.
  { intros ->. rewrite Hout in Hmaps. exact Hmaps. }
  intros j i Hj Hi x y distorted_r Hnz.
  specialize (Hcell j i Hj Hi). cbv zeta in Hcell.
  fold x y in Hcell. fold distorted_r in Hcell.
  unfold Rneqb in Hcell.
  destruct (Req_dec_T distorted_r 0) as [E | _]; [contradiction |].
  exact Hcell.
Qed.

Lemma C2_witness :
  exists self,
    init (env_with (blank_image 3 4)) "fisheye.png" 180 90
      (CameraTag STEREOGRAPHIC) (FormatTag DIAGONAL) None = inr self /\
    exists dim f cam map_x map_y,
      let perspective_focal := dim / (2 * np_tan (np_radians 90 / 2)) in
      get_perspective_width self = inr dim /\
      f_from_theta_and_r (CameraTag STEREOGRAPHIC) (np_radians (180 / 2))
        (dim / 2) = inr f /\
      create_camera (CameraTag STEREOGRAPHIC) f = inr cam /\
      init_undistort_map self (generate_meshgrid self) perspective_focal dim
        = inr (map_x, map_y) /\
      (@None (Z * Z) = None ->
       undistort_maps (env_with (blank_image 3 4)) self
       = inr (map_x, map_y)) /\
      forall j i : nat,
        (j < Z.to_nat (_height self))%nat ->
        (i < Z.to_nat (_width self))%nat ->
        let x := IZR (Z.of_nat i - _x_center self) in
        let y := IZR (Z.of_nat j - _y_center self) in
        let distorted_r := np_hypot x y in
        distorted_r <> 0 ->
        get2 0 map_x j i
          = theta_to_r cam (np_arctan (distorted_r / perspective_focal))
            / distorted_r * x + IZR (_x_center self) /\
        get2 0 map_y j i
          = theta_to_r cam (np_arctan (distorted_r / perspective_focal))
            / distorted_r * y + IZR (_y_center self).
Proof.
  eexists. split; [reflexivity |].
  exact (C2_map_radial_rescaling (env_with (blank_image 3 4)) "fisheye.png"
           180 90 STEREOGRAPHIC DIAGONAL None _ eq_refl).
Defined.

Lemma np_hypot_eq_0 (x y : R) : np_hypot x y = 0 <-> x = 0 /\ y = 0.
Proof.
  unfold np_hypot. split.
  - intros H. apply sqrt_eq_0 in H; [| nra].
    apply Rplus_sqr_eq_0. unfold Rsqr. exact H.
  - intros [-> ->]. replace (0 * 0 + 0 * 0) with 0 by lra. apply sqrt_0.
Qed.

Lemma np_hypot_pos (x y : R) : x <> 0 \/ y <> 0 -> 0 < np_hypot x y.
Proof.
  intros H. unfold np_hypot. apply sqrt_lt_R0.
  destruct H as [H | H]; nra.
Qed.

(** C6: on an object built by [__init__] with any of the four camera types,
    either format and any two fields of view, both built maps hold [0] at
    every grid point whose [distorted_r] is [0]; such a grid point is the
    one with [i = x_center] and [j = y_center] and no other; and no divisor
    of the masked assignment, the elements of [distorted_r[mask]], is
    zero.  Without a requested output shape the built maps are the maps
    handed to [cv2.remap]. *)
Theorem C6_zero_fill_where_radius_is_zero (env : Env) (image_file : string)
  (fov perspective_fov : R) (ct : CameraType) (fmt : FisheyeFormat)
  (output_shape : option (Z * Z)) (self : FisheyeToPerspective) :
  init env image_file fov perspective_fov (CameraTag ct) (FormatTag fmt)
    output_shape = inr self ->
  exists dim map_x map_y,
    get_perspective_width self = inr dim /\
    init_undistort_map self (generate_meshgrid self)
      (focal_length_from_fov perspective_fov dim) dim
      = inr (map_x, map_y) /\
    (output_shape = None -> undistort_maps env self = inr (map_x, map_y)) /\
    (forall j i : nat,
       (j < Z.to_nat (_height self))%nat ->
       (i < Z.to_nat (_width self))%nat ->
       let x := IZR (Z.of_nat i - _x_center self) in
       let y := IZR (Z.of_nat j - _y_center self) in
       (np_hypot x y = 0 <->
        Z.of_nat i = _x_center self /\ Z.of_nat j = _y_center self) /\
       (np_hypot x y = 0 ->
        get2 0 map_x j i = 0 /\ get2 0 map_y j i = 0)) /\
    let distorted_r := distorted_radius (generate_meshgrid self) in
    Forall (fun d => d <> 0)
      (np_select2 (nonzero_mask distorted_r) distorted_r).
Proof.
  intros Hinit.
  destruct (init_inv _ _ _ _ _ _ _ _ Hinit)
    as (ia & _ & _ & _ & Hpfov & Hfmt & Hct & Hout & _).
  destruct (built_maps_cells env self ct fmt Hct Hfmt)
    as (dim & f & cam & mx & my & Hdim & _ & _ & Hbuilt & Hmaps & _ & _
        & Hcell).
  rewrite Hpfov in Hbuilt.
  exists dim, mx, my. split; [exact Hdim |]. split; [exact Hbuilt |].
  split.
  { intros ->. rewrite Hout in Hmaps. exact Hmaps. }
  split.
  - intros j i Hj Hi x y. split.
    + rewrite np_hypot_eq_0. unfold x, y. split.
      * intros [Hx Hy]. apply eq_IZR_R0 in Hx. apply eq_IZR_R0 in Hy. lia.
      * intros [Hx Hy]. rewrite Hx, Hy, !Z.sub_diag. split; reflexivity.
    + intros Hz. specialize (Hcell j i Hj Hi). cbv zeta in Hcell.
      fold x y in Hcell. rewrite Hz in Hcell. unfold Rneqb in Hcell.
      destruct (Req_dec_T 0 0) as [_ | N]; [exact Hcell | contradiction].
  - apply np_select2_nonzero.
Qed.

Lemma C6_witness :
  exists self,
    init (env_with (blank_image 5 5)) "fisheye.png" 200 120
      (CameraTag ORTHOGRAPHIC) (FormatTag CIRCULAR) None = inr self /\
    exists dim map_x map_y,
      get_perspective_width self = inr dim /\
      init_undistort_map self (generate_meshgrid self)
        (focal_length_from_fov 120 dim) dim
        = inr (map_x, map_y) /\
      (@None (Z * Z) = None ->
       undistort_maps (env_with (blank_image 5 5)) self
       = inr (map_x, map_y)) /\
      (forall j i : nat,
         (j < Z.to_nat (_height self))%nat ->
         (i < Z.to_nat (_width self))%nat ->
         let x := IZR (Z.of_nat i - _x_center self) in
         let y := IZR (Z.of_nat j - _y_center self) in
         (np_hypot x y = 0 <->
          Z.of_nat i = _x_center self /\ Z.of_nat j = _y_center self) /\
         (np_hypot x y = 0 ->
          get2 0 map_x j i = 0 /\ get2 0 map_y j i = 0)) /\
      let distorted_r := distorted_radius (generate_meshgrid self) in
      Forall (fun d => d <> 0)
        (np_select2 (nonzero_mask distorted_r) distorted_r).
Proof.
  eexists. split; [reflexivity |].
  exact (C6_zero_fill_where_radius_is_zero (env_with (blank_image 5 5))
           "fisheye.png" 200 120 ORTHOGRAPHIC CIRCULAR None _ eq_refl).
Defined.

(** C10: when the file exists and decodes to an image of [h] rows and [w]
    columns ([h, w >= 1]), [__init__] succeeds for every camera type,
    format and output shape, and with [D = min(w, h)] the stored image is
    the window [[offset_y : offset_y + D, offset_x : offset_x + D]] of the
    decoded one, with [offset_x = (w - D) // 2] and
    [offset_y = (h - D) // 2]; it has [D] rows of [D] pixels, [_height] and
    [_width] are [D] and both centres are [(D - 1) // 2].  With one of the
    four camera types, one of the two formats and no requested output
    shape, both maps have [D] rows and [D] columns. *)
Theorem C10_square_centered_crop (env : Env) (image_file : string)
  (fov perspective_fov : R) (camera_type format : PyTag)
  (output_shape : option (Z * Z)) (img : Image) (h w : nat) :
  os_path_exists env image_file = true ->
  cv2_imread env image_file = Some img ->
  has_shape h w img -> (0 < h)%nat -> (0 < w)%nat ->
  let D := Z.min (Z.of_nat w) (Z.of_nat h) in
  let offset_x := ((Z.of_nat w - D) / 2)%Z in
  let offset_y := ((Z.of_nat h - D) / 2)%Z in
  exists self,
    init env image_file fov perspective_fov camera_type format output_shape
      = inr self /\
    image self
      = py_slice2 offset_y (offset_y + D) offset_x (offset_x + D) img /\
    (forall (j i : nat) (d : Pixel),
       (j < Z.to_nat D)%nat -> (i < Z.to_nat D)%nat ->
       get2 d (image self) j i
       = get2 d img (Z.to_nat offset_y + j) (Z.to_nat offset_x + i)) /\
    has_shape (Z.to_nat D) (Z.to_nat D) (image self) /\
    _height self = D /\ _width self = D /\
    _x_center self = ((D - 1) / 2)%Z /\ _y_center self = ((D - 1) / 2)%Z /\
    (forall (ct : CameraType) (fmt : FisheyeFormat),
       camera_type = CameraTag ct -> format = FormatTag fmt ->
       output_shape = None ->
       exists map_x map_y,
         undistort_maps env self = inr (map_x, map_y) /\
         has_shape (Z.to_nat D) (Z.to_nat D) map_x /\
         has_shape (Z.to_nat D) (Z.to_nat D) map_y).
Proof.
  intros Hex Hrd Hs Hh Hw D offset_x offset_y.
  destruct (read_image_ok env image_file img h w Hex Hrd Hs Hh Hw)
    as (ia & Hia & Himg & Hshape & Hht & Hwd & Hxc & Hyc & Hpix).
  fold D in Himg, Hshape, Hht, Hwd, Hxc, Hyc, Hpix.
  fold offset_x in Himg, Hpix. fold offset_y in Himg, Hpix.
  unfold init. rewrite Hia, bind_inr. eexists. split; [reflexivity |].
  simpl.
  split; [exact Himg |]. split; [exact Hpix |]. split; [exact Hshape |].
  split; [exact Hht |]. split; [exact Hwd |]. split; [exact Hxc |].
  split; [exact Hyc |].
  intros ct fmt -> -> ->.
  match goal with
  | |- context [undistort_maps _ ?s] =>
      destruct (undistort_maps_cells env s ct fmt eq_refl eq_refl eq_refl)
        as (dim & f & cam & mx & my & _ & _ & _ & Hmaps & Hmx & Hmy & _)
  end.
  simpl in Hmx, Hmy. rewrite Hht, Hwd in Hmx, Hmy.
  exists mx, my. split; [exact Hmaps |]. split; assumption.
Qed.

Lemma C10_witness :
  exists self,
    init (env_with (blank_image 480 640)) "fisheye.png" 180 90
      (CameraTag EQUIDISTANT) (FormatTag CIRCULAR) None = inr self /\
    has_shape 480 480 (image self) /\
    _height self = 480%Z /\ _width self = 480%Z /\
    _x_center self = 239%Z /\ _y_center self = 239%Z /\
    (forall (j i : nat) (d : Pixel),
       (j < 480)%nat -> (i < 480)%nat ->
       get2 d (image self) j i
       = get2 d (blank_image 480 640) j (80 + i)) /\
    exists map_x map_y,
      undistort_maps (env_with (blank_image 480 640)) self
        = inr (map_x, map_y) /\
      has_shape 480 480 map_x /\ has_shape 480 480 map_y.
Proof.
  destruct (C10_square_centered_crop (env_with (blank_image 480 640))
              "fisheye.png" 180 90 (CameraTag EQUIDISTANT)
              (FormatTag CIRCULAR) None (blank_image 480 640) 480 640
              eq_refl eq_refl (blank_image_shape 480 640))
    as (self & Hinit & _ & Hpix & Hshape & Hht & Hwd & Hxc & Hyc & Hmaps);
    [lia | lia |].
  exists self. split; [exact Hinit |].
  split; [exact Hshape |]. split; [exact Hht |]. split; [exact Hwd |].
  split; [exact Hxc |]. split; [exact Hyc |].
  split; [exact Hpix |].
  exact (Hmaps EQUIDISTANT CIRCULAR eq_refl eq_refl eq_refl).
Defined.

(** ** Unknown tags *)

Lemma create_camera_unknown (tag : PyTag) (f : R) :
  (forall ct, tag <> CameraTag ct) ->
  create_camera tag f
  = inl (ValueError ("Unknown camera type: " ++ PyTag_str tag)).
Proof.
  intros H. destruct tag as [ct | fmt | repr]; try reflexivity.
  exfalso. apply (H ct). reflexivity.
Qed.

Lemma f_from_theta_and_r_unknown (tag : PyTag) (theta r : R) :
  (forall ct, tag <> CameraTag ct) ->
  f_from_theta_and_r tag theta r
  = inl (ValueError ("Unknown camera type: " ++ PyTag_str tag)).
Proof.
  intros H. destruct tag as [ct | fmt | repr]; try reflexivity.
  exfalso. apply (H ct). reflexivity.
Qed.

Lemma get_perspective_width_unknown (self : FisheyeToPerspective) :
  (forall fmt, _format self <> FormatTag fmt) ->
  get_perspective_width self
  = inl (ValueError ("Unknown format " ++ PyTag_str (_format self))).
Proof.
  intros H. unfold get_perspective_width.
  destruct (_format self) as [ct | fmt | repr]; try reflexivity.
  exfalso. apply (H fmt). reflexivity.
Qed.

Lemma init_undistort_map_unknown (self : FisheyeToPerspective)
  (xy : array Z * array Z) (pfocal dim : R) :
  (forall ct, _camera_type self <> CameraTag ct) ->
  init_undistort_map self xy pfocal dim
  = inl (ValueError
           ("Unknown camera type: " ++ PyTag_str (_camera_type self))).
Proof.
  intros H. unfold init_undistort_map.
  rewrite (f_from_theta_and_r_unknown _ _ _ H). apply bind_inl.
Qed.

(** C8: a tag that is none of the four camera types makes [create_camera]
    and [f_from_theta_and_r] raise the [ValueError] "Unknown camera type";
    a format tag that is neither [CIRCULAR] nor [DIAGONAL] makes
    [get_perspective_width] raise the [ValueError] "Unknown format"; in both
    cases [__call__] raises that error and returns no image, so no map
    reaches [cv2.remap]. *)
Theorem C8_unknown_tags_raise :
  (forall (tag : PyTag) (f theta r : R),
     (forall ct, tag <> CameraTag ct) ->
     create_camera tag f
       = inl (ValueError ("Unknown camera type: " ++ PyTag_str tag)) /\
     f_from_theta_and_r tag theta r
       = inl (ValueError ("Unknown camera type: " ++ PyTag_str tag))) /\
  (forall (env : Env) (self : FisheyeToPerspective),
     (forall fmt, _format self <> FormatTag fmt) ->
     let e := ValueError ("Unknown format " ++ PyTag_str (_format self)) in
     get_perspective_width self = inl e /\
     undistort_maps env self = inl e /\
     call env self = inl e) /\
  (forall (env : Env) (self : FisheyeToPerspective) (fmt : FisheyeFormat),
     (forall ct, _camera_type self <> CameraTag ct) ->
     _format self = FormatTag fmt ->
     let e :=
       ValueError ("Unknown camera type: " ++ PyTag_str (_camera_type self)) in
     undistort_maps env self = inl e /\
     call env self = inl e).
Proof.
  split; [| split].
  - intros tag f theta r H. split.
    + apply create_camera_unknown, H.
    + apply f_from_theta_and_r_unknown, H.
  - intros env self H e.
    pose proof (get_perspective_width_unknown self H) as Hw. fold e in Hw.
    assert (Hm : undistort_maps env self = inl e)
      by (unfold undistort_maps; rewrite Hw; apply bind_inl).
    split; [exact Hw |]. split; [exact Hm |].
    unfold call. rewrite Hm. apply bind_inl.
  - intros env self fmt H Hfmt e.
    destruct (get_perspective_width_known self fmt Hfmt) as [dim Hdim].
    assert (Hm : undistort_maps env self = inl e).
    { unfold undistort_maps. rewrite Hdim, bind_inr.
      rewrite (init_undistort_map_unknown self _ _ _ H). apply bind_inl. }
    split; [exact Hm |].
    unfold call. rewrite Hm. apply bind_inl.
Qed.

Lemma C8_witness :
  (create_camera (OtherTag "fisheye") 1
     = inl (ValueError "Unknown camera type: fisheye") /\
   f_from_theta_and_r (FormatTag CIRCULAR) (PI / 2) 256
     = inl (ValueError "Unknown camera type: FisheyeFormat.CIRCULAR")) /\
  exists self,
    init (env_with (blank_image 4 4)) "fisheye.png" 180 90
      (CameraTag EQUIDISTANT) (OtherTag "panoramic") None = inr self /\
    get_perspective_width self
      = inl (ValueError "Unknown format panoramic") /\
    undistort_maps (env_with (blank_image 4 4)) self
      = inl (ValueError "Unknown format panoramic") /\
    call (env_with (blank_image 4 4)) self
      = inl (ValueError "Unknown format panoramic").
Proof.
  split.
  - split.
    + apply (proj1 C8_unknown_tags_raise (OtherTag "fisheye") 1 (PI / 2) 256).
      intros ct. discriminate.
    + apply (proj1 C8_unknown_tags_raise (FormatTag CIRCULAR) 1 (PI / 2) 256).
      intros ct. discriminate.
  - eexists. split; [reflexivity |].
    apply (proj1 (proj2 C8_unknown_tags_raise) (env_with (blank_image 4 4))).
    intros fmt. discriminate.
Defined.

(** ** No validation of the parameters *)

Lemma undistort_maps_known (env : Env) (self : FisheyeToPerspective)
  (ct : CameraType) (fmt : FisheyeFormat) :
  _camera_type self = CameraTag ct ->
  _format self = FormatTag fmt ->
  _output_shape self = None ->
  exists map_x map_y,
    undistort_maps env self = inr (map_x, map_y) /\
    call env self = inr (cv2_remap env (image self) map_x map_y).
Proof.
  intros Hct Hfmt Hout.
  destruct (undistort_maps_cells env self ct fmt Hct Hfmt Hout)
    as (dim & f & cam & mx & my & _ & _ & _ & Hmaps & _).
  exists mx, my. split; [exact Hmaps |].
  unfold call. rewrite Hmaps, bind_inr. reflexivity.
Qed.

(** C3, as the code has it: the two domain violations of the claim are not
    surfaced.  For each of the four camera types [create_camera] returns,
    for a focal length that is zero or negative, a camera that stores it;
    and a request whose half field of view lies beyond 90 degrees
    ([180 < fov < 360], as the orthographic one with [fov = 200]), with
    [0 < perspective_fov < 180], one of the four camera types, one of the
    two formats, a readable image of at least one pixel and no requested
    output shape, raises nothing: [__init__] returns the object, whose
    angle [deg2rad(_rfov)] is beyond [PI/2], and [__call__] builds the maps
    and hands them to [cv2.remap]. *)
Theorem C3_no_parameter_validation :
  (forall (ct : CameraType) (f : R),
     f <= 0 ->
     exists cam,
       create_camera (CameraTag ct) f = inr cam /\ focal_length cam = f) /\
  (forall (env : Env) (image_file : string) (fov perspective_fov : R)
          (ct : CameraType) (fmt : FisheyeFormat) (img : Image) (h w : nat),
     os_path_exists env image_file = true ->
     cv2_imread env image_file = Some img ->
     has_shape h w img -> (0 < h)%nat -> (0 < w)%nat ->
     180 < fov < 360 -> 0 < perspective_fov < 180 ->
     exists self map_x map_y,
       init env image_file fov perspective_fov (CameraTag ct) (FormatTag fmt)
         None = inr self /\
       PI / 2 < np_deg2rad (_rfov self) < PI /\
       undistort_maps env self = inr (map_x, map_y) /\
       call env self = inr (cv2_remap env (image self) map_x map_y)).
Proof.
  split.
  - intros ct f _. apply create_camera_focal.
  - intros env image_file fov pfov ct fmt img h w Hex Hrd Hs Hh Hw Hfov Hpfov.
    destruct (init_ok env image_file fov pfov (CameraTag ct) (FormatTag fmt)
                None img h w Hex Hrd Hs Hh Hw) as [self Hself].
    destruct (init_inv _ _ _ _ _ _ _ _ Hself)
      as (ia & _ & _ & Hrfov & _ & Hfmt & Hct & Hout & _).
    destruct (undistort_maps_known env self ct fmt Hct Hfmt Hout)
      as (mx & my & Hmaps & Hcall).
    exists self, mx, my.
    split; [exact Hself |]. split; [| split; assumption].
    rewrite Hrfov. unfold np_deg2rad. pose proof PI_pos as HPI.
    split; nra.
Qed.

Lemma C3_witness :
  (exists cam,
     create_camera (CameraTag ORTHOGRAPHIC) (-1) = inr cam /\
     focal_length cam = -1) /\
  exists self map_x map_y,
    init (env_with (blank_image 4 4)) "fisheye.png" 200 90
      (CameraTag ORTHOGRAPHIC) (FormatTag CIRCULAR) None = inr self /\
    PI / 2 < np_deg2rad (_rfov self) < PI /\
    undistort_maps (env_with (blank_image 4 4)) self
      = inr (map_x, map_y) /\
    call (env_with (blank_image 4 4)) self
      = inr (cv2_remap (env_with (blank_image 4 4)) (image self)
               map_x map_y).
Proof.
  split.
  - apply (proj1 C3_no_parameter_validation ORTHOGRAPHIC (-1)). lra.
  - apply (proj2 C3_no_parameter_validation
             (env_with (blank_image 4 4)) "fisheye.png"%string 200 90
             ORTHOGRAPHIC CIRCULAR (blank_image 4 4) 4%nat 4%nat
             eq_refl eq_refl (blank_image_shape 4 4)); try lia; lra.
Defined.

(** C3, as stated, fails: a camera with the focal length [-1] is
    constructed, and the orthographic request with [fov = 200] produces its
    maps. *)
Lemma C3_counterexample :
  -1 <= 0 /\
  create_camera (CameraTag ORTHOGRAPHIC) (-1)
    = inr (OrthographicCamera (-1)) /\
  ~ raises (create_camera (CameraTag ORTHOGRAPHIC) (-1)) /\
  exists self,
    init (env_with (blank_image 4 4)) "fisheye.png" 200 90
      (CameraTag ORTHOGRAPHIC) (FormatTag CIRCULAR) None = inr self /\
    ~ raises (undistort_maps (env_with (blank_image 4 4)) self) /\
    ~ raises (call (env_with (blank_image 4 4)) self).
Proof.
  split; [lra |]. split; [reflexivity |]. split.
  - intros [e He]. discriminate He.
  - destruct (init_blank 4 4 "fisheye.png" 200 90 (CameraTag ORTHOGRAPHIC)
                (FormatTag CIRCULAR) None) as [self Hself]; [lia | lia |].
    exists self. split; [exact Hself |].
    destruct (init_inv _ _ _ _ _ _ _ _ Hself)
      as (ia & _ & _ & _ & _ & Hfmt & Hct & Hout & _).
    destruct (undistort_maps_known (env_with (blank_image 4 4)) self
                ORTHOGRAPHIC CIRCULAR Hct Hfmt Hout)
      as (mx & my & Hmaps & Hcall).
    split; intros [e He]; congruence.
Qed.

(** The dimensions [__init__] stores for a readable image. *)
Lemma init_dimensions (env : Env) (image_file : string)
  (fov perspective_fov : R) (camera_type format : PyTag)
  (output_shape : option (Z * Z)) (img : Image) (h w : nat) :
  os_path_exists env image_file = true ->
  cv2_imread env image_file = Some img ->
  has_shape h w img -> (0 < h)%nat -> (0 < w)%nat ->
  exists self,
    init env image_file fov perspective_fov camera_type format output_shape
      = inr self /\
    _height self = Z.min (Z.of_nat w) (Z.of_nat h) /\
    _width self = Z.min (Z.of_nat w) (Z.of_nat h) /\
    _x_center self = ((Z.min (Z.of_nat w) (Z.of_nat h) - 1) / 2)%Z /\
    _y_center self = ((Z.min (Z.of_nat w) (Z.of_nat h) - 1) / 2)%Z.
Proof.
  intros Hex Hrd Hs Hh Hw.
  destruct (read_image_ok env image_file img h w Hex Hrd Hs Hh Hw)
    as (ia & Hia & _ & _ & Hht & Hwd & Hxc & Hyc & _).
  unfold init. rewrite Hia, bind_inr. eexists. split; [reflexivity |].
  simpl. repeat split; assumption.
Qed.

(** ** The perspective width *)

Lemma sqrt_two_squares (D : Z) :
  (0 <= D)%Z -> np_sqrt (IZR (D ^ 2 + D ^ 2)) = IZR D * sqrt 2.
Proof.
  intros HD. unfold np_sqrt.
  rewrite Z.pow_2_r, plus_IZR, mult_IZR.
  assert (H0 : 0 <= IZR D) by (apply IZR_le; exact HD).
  replace (IZR D * IZR D + IZR D * IZR D) with (IZR D * IZR D * 2) by lra.
  rewrite sqrt_mult by nra.
  rewrite sqrt_square by exact H0. reflexivity.
Qed.

Lemma undistort_maps_no_resize (env : Env) (self : FisheyeToPerspective)
  (dim : R) :
  get_perspective_width self = inr dim ->
  _output_shape self = None ->
  undistort_maps env self
  = init_undistort_map self (generate_meshgrid self)
      (focal_length_from_fov (_perspective_fov self) dim) dim.
Proof.
  intros Hdim Hout. unfold undistort_maps. rewrite Hdim, bind_inr.
  destruct (init_undistort_map self (generate_meshgrid self)
              (focal_length_from_fov (_perspective_fov self) dim) dim)
    as [e | [mx my]].
  - apply bind_inl.
  - rewrite bind_inr, Hout. reflexivity.
Qed.

Lemma focal_length_from_fov_90 (width : R) :
  focal_length_from_fov 90 width = width / 2.
Proof.
  unfold focal_length_from_fov, np_tan, np_radians.
  replace (90 * (PI / 180) / 2) with (PI / 4) by lra.
  rewrite tan_PI4. lra.
Qed.

(** C1, as the code has it: [read_image] overwrites [_width] and [_height]
    with the dimensions of the cropped square before
    [get_perspective_width] reads them.  For a Diagonal-format request on a
    readable source of [h] rows and [w] columns, with [D = min(w, h)],
    [dim = sqrt(D^2 + D^2) = D * sqrt 2], and without a requested output
    shape the maps are built from this [dim] and from the perspective focal
    length [focal_length_from_fov(perspective_fov, dim)]. *)
Theorem C1_diagonal_width_after_crop (env : Env) (image_file : string)
  (fov perspective_fov : R) (camera_type : PyTag)
  (output_shape : option (Z * Z)) (img : Image) (h w : nat) :
  os_path_exists env image_file = true ->
  cv2_imread env image_file = Some img ->
  has_shape h w img -> (0 < h)%nat -> (0 < w)%nat ->
  let D := Z.min (Z.of_nat w) (Z.of_nat h) in
  let dim := np_sqrt (IZR (D ^ 2 + D ^ 2)) in
  exists self,
    init env image_file fov perspective_fov camera_type (FormatTag DIAGONAL)
      output_shape = inr self /\
    get_perspective_width self = inr dim /\
    dim = IZR D * sqrt 2 /\
    (output_shape = None ->
     undistort_maps env self
     = init_undistort_map self (generate_meshgrid self)
         (focal_length_from_fov perspective_fov dim) dim).
Proof.
  intros Hex Hrd Hs Hh Hw D dim.
  destruct (init_dimensions env image_file fov perspective_fov
              camera_type (FormatTag DIAGONAL) output_shape img h w
              Hex Hrd Hs Hh Hw)
    as (self & Hinit & Hht & Hwd & _).
  fold D in Hht, Hwd.
  destruct (init_inv _ _ _ _ _ _ _ _ Hinit)
    as (ia & _ & _ & _ & Hpfov & Hfmt & _ & Hout & _).
  assert (Hdim : get_perspective_width self = inr dim).
  { unfold get_perspective_width. rewrite Hfmt, Hht, Hwd. reflexivity. }
  exists self. split; [exact Hinit |]. split; [exact Hdim |]. split.
  - apply sqrt_two_squares. unfold D. lia.
  - intros ->. rewrite <- Hpfov.
    apply undistort_maps_no_resize; assumption.
Qed.

Lemma C1_witness :
  exists self,
    init (env_with (blank_image 480 640)) "fisheye.png" 180 90
      (CameraTag EQUIDISTANT) (FormatTag DIAGONAL) None = inr self /\
    get_perspective_width self = inr (np_sqrt (IZR (480 ^ 2 + 480 ^ 2))) /\
    np_sqrt (IZR (480 ^ 2 + 480 ^ 2)) = 480 * sqrt 2 /\
    undistort_maps (env_with (blank_image 480 640)) self
    = init_undistort_map self (generate_meshgrid self)
        (focal_length_from_fov 90 (np_sqrt (IZR (480 ^ 2 + 480 ^ 2))))
        (np_sqrt (IZR (480 ^ 2 + 480 ^ 2))).
Proof.
  destruct (C1_diagonal_width_after_crop (env_with (blank_image 480 640))
              "fisheye.png" 180 90 (CameraTag EQUIDISTANT) None
              (blank_image 480 640) 480 640
              eq_refl eq_refl (blank_image_shape 480 640))
    as (self & Hinit & Hdim & Hval & Hmaps); [lia | lia |].
  exists self. split; [exact Hinit |]. split; [exact Hdim |].
  split; [exact Hval |]. exact (Hmaps eq_refl).
Defined.

(** C1, as stated, fails: for a 640 by 480 source and the Diagonal format
    the builder's [dim] is [sqrt(480^2 + 480^2)], which is not [800], and
    with [perspective_fov = 90] the perspective focal length is not the one
    of [800]. *)
Lemma C1_counterexample :
  exists self dim,
    init (env_with (blank_image 480 640)) "fisheye.png" 180 90
      (CameraTag EQUIDISTANT) (FormatTag DIAGONAL) None = inr self /\
    get_perspective_width self = inr dim /\
    dim <> np_sqrt (IZR (640 ^ 2 + 480 ^ 2)) /\
    dim <> 800 /\
    focal_length_from_fov 90 dim <> focal_length_from_fov 90 800.
Proof.
  destruct (init_dimensions (env_with (blank_image 480 640))
              "fisheye.png" 180 90 (CameraTag EQUIDISTANT)
              (FormatTag DIAGONAL) None (blank_image 480 640) 480 640
              eq_refl eq_refl (blank_image_shape 480 640))
    as (self & Hinit & Hht & Hwd & _); [lia | lia |].
  destruct (init_inv _ _ _ _ _ _ _ _ Hinit)
    as (ia & _ & _ & _ & _ & Hfmt & _).
  exists self, (np_sqrt (IZR (480 ^ 2 + 480 ^ 2))).
  split; [exact Hinit |]. split.
  { unfold get_perspective_width. rewrite Hfmt, Hht, Hwd. reflexivity. }
  assert (Hne : np_sqrt (IZR (480 ^ 2 + 480 ^ 2)) <> 800).
  { unfold np_sqrt. intros E.
    assert (Hsq : sqrt (IZR (480 ^ 2 + 480 ^ 2))
                  * sqrt (IZR (480 ^ 2 + 480 ^ 2))
                  = IZR (480 ^ 2 + 480 ^ 2)).
    { apply sqrt_def. apply IZR_le. vm_compute. discriminate. }
    rewrite E in Hsq.
    replace (480 ^ 2 + 480 ^ 2)%Z with 460800%Z in Hsq by reflexivity.
    lra. }
  split; [| split; [exact Hne |]].
  - replace (640 ^ 2 + 480 ^ 2)%Z with (800 * 800)%Z by reflexivity.
    rewrite mult_IZR. unfold np_sqrt at 2. rewrite sqrt_square by lra.
    exact Hne.
  - rewrite !focal_length_from_fov_90. lra.
Qed.

(** ** End-to-end scenario 1 *)

Lemma grid_distorted_radius (self : FisheyeToPerspective) (j i : nat) :
  (j < Z.to_nat (_height self))%nat -> (i < Z.to_nat (_width self))%nat ->
  get2 0 (distorted_radius (generate_meshgrid self)) j i
  = np_hypot (IZR (Z.of_nat i - _x_center self))
      (IZR (Z.of_nat j - _y_center self)).
Proof.
  intros Hj Hi.
  destruct (generate_meshgrid_shape self) as [Hsx _].
  pose proof (generate_meshgrid_same_shape self) as Hxy.
  destruct (generate_meshgrid_get2 self j i Hj Hi) as [Ex Ey].
  destruct (generate_meshgrid self) as [gx gy]. simpl in *.
  rewrite distorted_radius_get2.
  - rewrite Ex, Ey. reflexivity.
  - exact Hxy.
  - rewrite (proj1 Hsx). exact Hj.
  - rewrite (has_shape_row _ _ gx j Hsx Hj). exact Hi.
Qed.

(** C7, as the code has it: for a readable 512 by 512 source with
    [fov = 180], [perspective_fov = 90], the equidistant camera, the
    circular format and no requested output shape, both maps have 512 rows
    and 512 columns; the centre is [(255, 255)], the grid point
    [(255, 255)] has the offsets [(0, 0)] and both maps hold [0] there
    (the source coordinates [(0, 0)]: [x_center] and [y_center] are not
    added at that point); at the four corners [distorted_r] is the positive
    real [hypot(i - 255, j - 255)]. *)
Theorem C7_scenario_512_equidistant_circular (env : Env)
  (image_file : string) (img : Image) :
  os_path_exists env image_file = true ->
  cv2_imread env image_file = Some img ->
  has_shape 512 512 img ->
  exists self map_x map_y,
    init env image_file 180 90 (CameraTag EQUIDISTANT) (FormatTag CIRCULAR)
      None = inr self /\
    undistort_maps env self = inr (map_x, map_y) /\
    has_shape 512 512 map_x /\ has_shape 512 512 map_y /\
    _x_center self = 255%Z /\ _y_center self = 255%Z /\
    get2 0%Z (fst (generate_meshgrid self)) 255 255 = 0%Z /\
    get2 0%Z (snd (generate_meshgrid self)) 255 255 = 0%Z /\
    get2 0 map_x 255 255 = 0 /\ get2 0 map_y 255 255 = 0 /\
    forall j i : nat,
      (j = 0 \/ j = 511)%nat -> (i = 0 \/ i = 511)%nat ->
      get2 0 (distorted_radius (generate_meshgrid self)) j i
      = np_hypot (IZR (Z.of_nat i - 255)) (IZR (Z.of_nat j - 255)) /\
      0 < get2 0 (distorted_radius (generate_meshgrid self)) j i.
Proof.
  intros Hex Hrd Hs.
  destruct (init_dimensions env image_file 180 90 (CameraTag EQUIDISTANT)
              (FormatTag CIRCULAR) None img 512 512 Hex Hrd Hs)
    as (self & Hinit & Hht & Hwd & Hxc & Hyc); [lia | lia |].
  change (Z.min (Z.of_nat 512) (Z.of_nat 512)) with 512%Z in Hht, Hwd.
  change ((Z.min (Z.of_nat 512) (Z.of_nat 512) - 1) / 2)%Z with 255%Z
    in Hxc, Hyc.
  destruct (init_inv _ _ _ _ _ _ _ _ Hinit)
    as (ia & _ & _ & _ & _ & Hfmt & Hct & Hout & _).
  destruct (undistort_maps_cells env self EQUIDISTANT CIRCULAR Hct Hfmt Hout)
    as (dim & f & cam & mx & my & _ & _ & _ & Hmaps & Hmx & Hmy & Hcell).
  rewrite Hht, Hwd in Hmx, Hmy, Hcell.
  change (Z.to_nat 512) with 512%nat in Hmx, Hmy, Hcell.
  assert (H255 : (255 < Z.to_nat 512)%nat) by lia.
  assert (Hh255 : (255 < Z.to_nat (_height self))%nat)
    by (rewrite Hht; exact H255).
  assert (Hw255 : (255 < Z.to_nat (_width self))%nat)
    by (rewrite Hwd; exact H255).
  destruct (generate_meshgrid_get2 self 255 255 Hh255 Hw255) as [Gx Gy].
  rewrite Hxc in Gx. rewrite Hyc in Gy.
  change (Z.of_nat 255 - 255)%Z with 0%Z in Gx, Gy.
  assert (Hc : get2 0 mx 255 255 = 0 /\ get2 0 my 255 255 = 0).
  { assert (L : (255 < 512)%nat) by lia.
    specialize (Hcell 255%nat 255%nat L L). cbv zeta in Hcell.
    rewrite Hxc, Hyc in Hcell.
    change (Z.of_nat 255 - 255)%Z with 0%Z in Hcell.
    assert (E0 : np_hypot 0 0 = 0) by (apply np_hypot_eq_0; split; reflexivity).
    rewrite E0 in Hcell. unfold Rneqb in Hcell.
    destruct (Req_dec_T 0 0) as [_ | N]; [exact Hcell | contradiction]. }
  exists self, mx, my.
  split; [exact Hinit |]. split; [exact Hmaps |].
  split; [exact Hmx |]. split; [exact Hmy |].
  split; [exact Hxc |]. split; [exact Hyc |].
  split; [exact Gx |]. split; [exact Gy |].
  split; [exact (proj1 Hc) |]. split; [exact (proj2 Hc) |].
  intros j i Hj Hi.
  assert (Hjh : (j < Z.to_nat (_height self))%nat) by (rewrite Hht; lia).
  assert (Hiw : (i < Z.to_nat (_width self))%nat) by (rewrite Hwd; lia).
  rewrite (grid_distorted_radius self j i Hjh Hiw), Hxc, Hyc.
  split; [reflexivity |].
  apply np_hypot_pos. left. intros E. apply eq_IZR_R0 in E. lia.
Qed.

Lemma C7_witness :
  exists self map_x map_y,
    init (env_with (blank_image 512 512)) "fisheye.png" 180 90
      (CameraTag EQUIDISTANT) (FormatTag CIRCULAR) None = inr self /\
    undistort_maps (env_with (blank_image 512 512)) self
      = inr (map_x, map_y) /\
    has_shape 512 512 map_x /\ has_shape 512 512 map_y /\
    _x_center self = 255%Z /\ _y_center self = 255%Z /\
    get2 0%Z (fst (generate_meshgrid self)) 255 255 = 0%Z /\
    get2 0%Z (snd (generate_meshgrid self)) 255 255 = 0%Z /\
    get2 0 map_x 255 255 = 0 /\ get2 0 map_y 255 255 = 0 /\
    forall j i : nat,
      (j = 0 \/ j = 511)%nat -> (i = 0 \/ i = 511)%nat ->
      get2 0 (distorted_radius (generate_meshgrid self)) j i
      = np_hypot (IZR (Z.of_nat i - 255)) (IZR (Z.of_nat j - 255)) /\
      0 < get2 0 (distorted_radius (generate_meshgrid self)) j i.
Proof.
  exact (C7_scenario_512_equidistant_circular
           (env_with (blank_image 512 512)) "fisheye.png"
           (blank_image 512 512) eq_refl eq_refl
           (blank_image_shape 512 512)).
Defined.

(** C7, as stated, fails: in scenario 1 both maps hold [0] at the centre
    pixel, so the centre pixel is sent to the source coordinates [(0, 0)]
    and not to [(255, 255)]. *)
Lemma C7_counterexample :
  exists self map_x map_y,
    init (env_with (blank_image 512 512)) "fisheye.png" 180 90
      (CameraTag EQUIDISTANT) (FormatTag CIRCULAR) None = inr self /\
    undistort_maps (env_with (blank_image 512 512)) self
      = inr (map_x, map_y) /\
    (get2 0 map_x 255 255, get2 0 map_y 255 255) = (0, 0) /\
    (get2 0 map_x 255 255, get2 0 map_y 255 255) <> (255, 255).
Proof.
  destruct (init_dimensions (env_with (blank_image 512 512)) "fisheye.png"
              180 90 (CameraTag EQUIDISTANT) (FormatTag CIRCULAR) None
              (blank_image 512 512) 512 512 eq_refl eq_refl
              (blank_image_shape 512 512))
    as (self & Hinit & Hht & Hwd & Hxc & Hyc); [lia | lia |].
  change (Z.min (Z.of_nat 512) (Z.of_nat 512)) with 512%Z in Hht, Hwd.
  change ((Z.min (Z.of_nat 512) (Z.of_nat 512) - 1) / 2)%Z with 255%Z
    in Hxc, Hyc.
  destruct (init_inv _ _ _ _ _ _ _ _ Hinit)
    as (ia & _ & _ & _ & _ & Hfmt & Hct & Hout & _).
  destruct (undistort_maps_cells (env_with (blank_image 512 512)) self
              EQUIDISTANT CIRCULAR Hct Hfmt Hout)
    as (dim & f & cam & mx & my & _ & _ & _ & Hmaps & _ & _ & Hcell).
  assert (Hh255 : (255 < Z.to_nat (_height self))%nat) by (rewrite Hht; lia).
  assert (Hw255 : (255 < Z.to_nat (_width self))%nat) by (rewrite Hwd; lia).
  specialize (Hcell 255%nat 255%nat Hh255 Hw255). cbv zeta in Hcell.
  rewrite Hxc, Hyc in Hcell.
  change (Z.of_nat 255 - 255)%Z with 0%Z in Hcell.
  assert (E0 : np_hypot 0 0 = 0) by (apply np_hypot_eq_0; split; reflexivity).
  rewrite E0 in Hcell. unfold Rneqb in Hcell.
  destruct (Req_dec_T 0 0) as [_ | N]; [| contradiction].
  destruct Hcell as [Hx Hy].
  exists self, mx, my. split; [exact Hinit |]. split; [exact Hmaps |].
  rewrite Hx, Hy. split; [reflexivity |].
  intros E. injection E as E1 E2. lra.
Qed.

(** ** Where the quotients of the builder are genuine

    For a fisheye field of view strictly between 0 and 360 degrees and a
    perspective field of view strictly between 0 and 180 degrees, on a
    readable image of at least one pixel, no divisor of [__call__] is zero:
    [dim], the perspective focal length and the fisheye focal length are
    positive (and the divisors [distorted_r[mask]] never are zero, by
    [np_select2_nonzero]). *)

Lemma np_radians_half_range (fov : R) :
  0 < fov < 360 -> 0 < np_deg2rad (fov / 2) < PI.
Proof.
  intros [H0 H1]. pose proof PI_pos as HPI. unfold np_deg2rad.
  split; nra.
Qed.

Lemma focal_length_from_fov_pos (fov width : R) :
  0 < fov < 180 -> 0 < width -> 0 < focal_length_from_fov fov width.
Proof.
  intros [H0 H1] Hw. pose proof PI_pos as HPI.
  unfold focal_length_from_fov, np_tan, np_radians.
  assert (Ht : 0 < tan (fov * (PI / 180) / 2)) by (apply tan_gt_0; nra).
  apply Rmult_lt_0_compat; [exact Hw | apply Rinv_0_lt_compat; lra].
Qed.

Lemma f_from_theta_and_r_pos (ct : CameraType) (theta r f : R) :
  0 < theta < PI -> 0 < r ->
  f_from_theta_and_r (CameraTag ct) theta r = inr f -> 0 < f.
Proof.
  intros [H0 H1] Hr.
  pose proof (sin_pos_open theta H0 H1) as Hs.
  pose proof (sin_half_pos theta H0 H1) as Hsh.
  pose proof (tan_half_pos theta H0 H1) as Hth.
  destruct ct; simpl; unfold ret; intros E; injection E as <-;
    unfold Equidistant_f_from_theta_and_r, Equisolid_f_from_theta_and_r,
      Orthographic_f_from_theta_and_r, Stereographic_f_from_theta_and_r,
      np_sin, np_tan;
    (apply Rmult_lt_0_compat; [lra | apply Rinv_0_lt_compat; lra]).
Qed.

Lemma get_perspective_width_pos (self : FisheyeToPerspective) (dim : R) :
  (0 < _width self)%Z -> (0 < _height self)%Z ->
  get_perspective_width self = inr dim -> 0 < dim.
Proof.
  intros Hw Hh. unfold get_perspective_width.
  destruct (_format self) as [c | [|] | repr]; try discriminate;
    unfold ret; intros E; injection E as <-.
  - apply IZR_lt. lia.
  - unfold np_sqrt. apply sqrt_lt_R0. apply IZR_lt. nia.
Qed.

Lemma builder_divisors_positive (env : Env) (image_file : string)
  (fov perspective_fov : R) (ct : CameraType) (fmt : FisheyeFormat)
  (output_shape : option (Z * Z)) (img : Image) (h w : nat) :
  os_path_exists env image_file = true ->
  cv2_imread env image_file = Some img ->
  has_shape h w img -> (0 < h)%nat -> (0 < w)%nat ->
  0 < fov < 360 -> 0 < perspective_fov < 180 ->
  exists self dim f cam,
    init env image_file fov perspective_fov (CameraTag ct) (FormatTag fmt)
      output_shape = inr self /\
    get_perspective_width self = inr dim /\
    f_from_theta_and_r (CameraTag ct) (np_deg2rad (fov / 2)) (dim / 2)
      = inr f /\
    create_camera (CameraTag ct) f = inr cam /\
    0 < dim /\
    0 < np_tan (np_radians perspective_fov / 2) /\
    0 < focal_length_from_fov perspective_fov dim /\
    0 < focal_length cam.
Proof.
  intros Hex Hrd Hs Hh Hw Hfov Hpfov.
  destruct (init_dimensions env image_file fov perspective_fov
              (CameraTag ct) (FormatTag fmt) output_shape img h w
              Hex Hrd Hs Hh Hw)
    as (self & Hinit & Hht & Hwd & _).
  destruct (init_inv _ _ _ _ _ _ _ _ Hinit)
    as (ia & _ & _ & _ & _ & Hfmt & _).
  destruct (get_perspective_width_known self fmt Hfmt) as [dim Hdim].
  assert (Hdpos : 0 < dim).
  { apply (get_perspective_width_pos self dim); [lia | lia | exact Hdim]. }
  destruct (f_from_theta_and_r_known ct (np_deg2rad (fov / 2)) (dim / 2))
    as [f Hf].
  destruct (create_camera_focal ct f) as (cam & Hcam & Hfl).
  exists self, dim, f, cam.
  split; [exact Hinit |]. split; [exact Hdim |]. split; [exact Hf |].
  split; [exact Hcam |]. split; [exact Hdpos |].
  pose proof PI_pos as HPI.
  split; [| split].
  - unfold np_tan, np_radians. apply tan_gt_0; nra.
  - apply focal_length_from_fov_pos; assumption.
  - rewrite Hfl.
    apply (f_from_theta_and_r_pos ct (np_deg2rad (fov / 2)) (dim / 2) f);
      [apply np_radians_half_range; exact Hfov | lra | exact Hf].
Qed.

(** * Further properties of the code *)

(** ** camera.py *)

(** X1: the equidistant mappings are inverse to each other at every real
    angle and radius, and the stereographic forward mapping undoes its
    inverse at every real radius, for every focal length other than zero
    (negative ones included). *)
Theorem X1_round_trips_without_range (f theta r : R) :
  f <> 0 ->
  r_to_theta (EquidistantCamera f) (theta_to_r (EquidistantCamera f) theta)
    = theta /\
  theta_to_r (EquidistantCamera f) (r_to_theta (EquidistantCamera f) r)
    = r /\
  theta_to_r (StereographicCamera f) (r_to_theta (StereographicCamera f) r)
    = r.
Proof.
  intros Hf. simpl. unfold np_tan, np_arctan. repeat split.
  - field. exact Hf.
  - field. exact Hf.
  - replace (2 * atan (r / (2 * f)) / 2) with (atan (r / (2 * f))) by lra.
    rewrite tan_atan. field. exact Hf.
Qed.

Lemma X1_witness :
  r_to_theta (EquidistantCamera (-2))
    (theta_to_r (EquidistantCamera (-2)) 7) = 7 /\
  theta_to_r (EquidistantCamera (-2))
    (r_to_theta (EquidistantCamera (-2)) (-5)) = -5 /\
  theta_to_r (StereographicCamera (-2))
    (r_to_theta (StereographicCamera (-2)) (-5)) = -5.
Proof.
  apply (X1_round_trips_without_range (-2) 7 (-5)). lra.
Defined.

Lemma r_to_theta_range (cam : FisheyeCamera) (r : R) :
  0 < focal_length cam ->
  0 <= r < theta_to_r cam (PI / 2) ->
  0 <= r_to_theta cam r < PI / 2.
Proof.
  intros Hf [H0 H1]. pose proof PI_pos as HPI.
  destruct cam as [f | f | f | f]; simpl in *;
    unfold np_sin, np_tan, np_arcsin, np_arctan in *.
  - split.
    + apply Rmult_le_pos; [lra | left; apply Rinv_0_lt_compat; lra].
    + apply Rmult_lt_reg_r with f; [lra |].
      replace (r / f * f) with r by (field; lra). lra.
  - replace (PI / 2 / 2) with (PI / 4) in H1 by lra.
    pose proof sin_PI4_le_1 as Hs1. pose proof sin_PI4_pos as Hs0.
    set (q := r / (2 * f)).
    assert (Hq0 : 0 <= q)
      by (apply Rmult_le_pos; [lra | left; apply Rinv_0_lt_compat; lra]).
    assert (Hq1 : q < sin (PI / 4)).
    { apply Rmult_lt_reg_r with (2 * f); [lra |].
      unfold q. replace (r / (2 * f) * (2 * f)) with r by (field; lra).
      lra. }
    pose proof (asin_bound q) as [Hb0 Hb1].
    pose proof (sin_asin q ltac:(lra)) as Hsa.
    split.
    + destruct (Rle_lt_dec 0 (asin q)) as [Hge | Hlt]; [lra |].
      exfalso.
      assert (sin (asin q) < sin 0) by (apply sin_increasing_1; lra).
      rewrite sin_0 in *. lra.
    + destruct (Rlt_le_dec (asin q) (PI / 4)) as [Hlt | Hge]; [lra |].
      exfalso. destruct Hge as [Hgt | Heq].
      * assert (sin (PI / 4) < sin (asin q))
          by (apply sin_increasing_1; lra).
        lra.
      * rewrite <- Heq in Hsa. lra.
  - rewrite sin_PI2 in H1.
    set (q := r / f).
    assert (Hq0 : 0 <= q)
      by (apply Rmult_le_pos; [lra | left; apply Rinv_0_lt_compat; lra]).
    assert (Hq1 : q < 1).
    { apply Rmult_lt_reg_r with f; [lra |].
      unfold q. replace (r / f * f) with r by (field; lra). lra. }
    pose proof (asin_bound q) as [Hb0 Hb1].
    pose proof (sin_asin q ltac:(lra)) as Hsa.
    split.
    + destruct (Rle_lt_dec 0 (asin q)) as [Hge | Hlt]; [lra |].
      exfalso.
      assert (sin (asin q) < sin 0) by (apply sin_increasing_1; lra).
      rewrite sin_0 in *. lra.
    + destruct Hb1 as [Hlt | Heq]; [lra |].
      exfalso. rewrite Heq, sin_PI2 in Hsa. lra.
  - set (q := r / (2 * f)).
    assert (Hq0 : 0 <= q)
      by (apply Rmult_le_pos; [lra | left; apply Rinv_0_lt_compat; lra]).
    replace (PI / 2 / 2) with (PI / 4) in H1 by lra.
    rewrite tan_PI4 in H1.
    assert (Hq1 : q < 1).
    { apply Rmult_lt_reg_r with (2 * f); [lra |].
      unfold q. replace (r / (2 * f) * (2 * f)) with r by (field; lra).
      lra. }
    pose proof (atan_increasing q 1 Hq1) as Hup. rewrite atan_1 in Hup.
    split; [| lra].
    destruct Hq0 as [Hpos | Hz].
    + pose proof (atan_increasing 0 q Hpos) as Hinc.
      rewrite atan_0 in Hinc. lra.
    + rewrite <- Hz, atan_0. lra.
Qed.

(** X2: with a positive focal length, the inverse mapping of every variant
    sends the radii of [[0, theta_to_r (PI/2))] to angles of [[0, PI/2)]
    and is strictly increasing on that range. *)
Theorem X2_r_to_theta_increasing (cam : FisheyeCamera) (r1 r2 : R) :
  0 < focal_length cam ->
  0 <= r1 -> r1 < r2 -> r2 < theta_to_r cam (PI / 2) ->
  0 <= r_to_theta cam r1 /\
  r_to_theta cam r1 < r_to_theta cam r2 /\
  r_to_theta cam r2 < PI / 2.
Proof.
  intros Hf H0 H12 H2.
  pose proof (r_to_theta_range cam r1 Hf ltac:(lra)) as [A0 A1].
  pose proof (r_to_theta_range cam r2 Hf ltac:(lra)) as [B0 B1].
  split; [exact A0 |]. split; [| exact B1].
  destruct (Rlt_le_dec (r_to_theta cam r1) (r_to_theta cam r2))
    as [Hlt | Hge]; [exact Hlt | exfalso].
  pose proof (theta_to_r_r_to_theta cam r1 Hf ltac:(lra)) as E1.
  pose proof (theta_to_r_r_to_theta cam r2 Hf ltac:(lra)) as E2.
  destruct Hge as [Hgt | Heq].
  - pose proof (theta_to_r_increasing_closed cam _ _ Hf B0 Hgt
                  ltac:(lra)) as Hm.
    lra.
  - rewrite Heq in E2. lra.
Qed.

Lemma X2_witness :
  0 <= r_to_theta (OrthographicCamera 4) 1 /\
  r_to_theta (OrthographicCamera 4) 1 < r_to_theta (OrthographicCamera 4) 3 /\
  r_to_theta (OrthographicCamera 4) 3 < PI / 2.
Proof.
  apply (X2_r_to_theta_increasing (OrthographicCamera 4) 1 3);
    simpl; unfold np_sin; rewrite ?sin_PI2; lra.
Defined.

Lemma theta_to_r_calibrated (ct : CameraType) (theta_max r_max f : R)
  (cam : FisheyeCamera) :
  0 < theta_max < PI ->
  f_from_theta_and_r (CameraTag ct) theta_max r_max = inr f ->
  create_camera (CameraTag ct) f = inr cam ->
  theta_to_r cam theta_max = r_max.
Proof.
  intros [H0 H1].
  pose proof (sin_pos_open theta_max H0 H1) as Hs.
  pose proof (sin_half_pos theta_max H0 H1) as Hsh.
  pose proof (tan_half_pos theta_max H0 H1) as Hth.
  destruct ct; simpl; unfold ret; intros Ef Ec;
    injection Ef as <-; injection Ec as <-; simpl;
    unfold Equidistant_f_from_theta_and_r, Equisolid_f_from_theta_and_r,
      Orthographic_f_from_theta_and_r, Stereographic_f_from_theta_and_r,
      np_sin, np_tan; field; lra.
Qed.

(** X3: the calibration scales with the image.  For each camera type and
    every [theta_max] strictly between [0] and [PI] (where the divisor of
    the derivation is not zero), multiplying [r_max] by [k] multiplies by
    [k] the focal length that [f_from_theta_and_r] returns and every radius
    of the camera built from it. *)
Theorem X3_calibration_scales_with_r_max
  (ct : CameraType) (theta_max r_max k : R) :
  0 < theta_max < PI ->
  exists f fk cam camk,
    f_from_theta_and_r (CameraTag ct) theta_max r_max = inr f /\
    f_from_theta_and_r (CameraTag ct) theta_max (k * r_max) = inr fk /\
    create_camera (CameraTag ct) f = inr cam /\
    create_camera (CameraTag ct) fk = inr camk /\
    fk = k * f /\
    theta_to_r cam theta_max = r_max /\
    theta_to_r camk theta_max = k * r_max /\
    forall theta, theta_to_r camk theta = k * theta_to_r cam theta.
Proof.
  intros Hth.
  destruct (f_from_theta_and_r_known ct theta_max r_max) as [f Hf].
  destruct (f_from_theta_and_r_known ct theta_max (k * r_max)) as [fk Hfk].
  destruct (create_camera_known ct f) as [cam Hcam].
  destruct (create_camera_known ct fk) as [camk Hcamk].
  exists f, fk, cam, camk.
  split; [exact Hf |]. split; [exact Hfk |].
  split; [exact Hcam |]. split; [exact Hcamk |].
  pose proof (theta_to_r_calibrated ct theta_max r_max f cam Hth Hf Hcam)
    as Hc.
  pose proof (theta_to_r_calibrated ct theta_max (k * r_max) fk camk Hth
                Hfk Hcamk) as Hck.
  assert (Hscale : fk = k * f /\
            forall theta, theta_to_r camk theta = k * theta_to_r cam theta).
  { clear Hc Hck. destruct ct; simpl in *; unfold ret in *;
      injection Hf as <-; injection Hfk as <-;
      injection Hcam as <-; injection Hcamk as <-;
      unfold Equidistant_f_from_theta_and_r, Equisolid_f_from_theta_and_r,
        Orthographic_f_from_theta_and_r, Stereographic_f_from_theta_and_r;
      (split; [unfold Rdiv; ring | intros theta; simpl; unfold Rdiv; ring]). }
  destruct Hscale as [Hs1 Hs2].
  split; [exact Hs1 |]. split; [exact Hc |]. split; [exact Hck |].
  exact Hs2.
Qed.

Lemma X3_witness :
  0 < PI / 2 < PI /\
  exists f fk cam camk,
    f_from_theta_and_r (CameraTag EQUISOLID) (PI / 2) 256 = inr f /\
    f_from_theta_and_r (CameraTag EQUISOLID) (PI / 2) (2 * 256) = inr fk /\
    create_camera (CameraTag EQUISOLID) f = inr cam /\
    create_camera (CameraTag EQUISOLID) fk = inr camk /\
    fk = 2 * f /\
    theta_to_r cam (PI / 2) = 256 /\
    theta_to_r camk (PI / 2) = 2 * 256 /\
    forall theta, theta_to_r camk theta = 2 * theta_to_r cam theta.
Proof.
  pose proof PI_pos.
  split; [lra |].
  apply (X3_calibration_scales_with_r_max EQUISOLID (PI / 2) 256 2). lra.
Defined.

(** X4: with a positive focal length, the radii that the orthographic and
    the equisolid forward mappings produce, at any angle whatever, stay
    within [f] and [2 f], so that the quotient their inverse hands to
    [arcsin] lies in [[-1, 1]]. *)
Theorem X4_forward_radii_in_arcsin_domain (f theta : R) :
  0 < f ->
  Rabs (theta_to_r (OrthographicCamera f) theta) <= f /\
  -1 <= theta_to_r (OrthographicCamera f) theta / f <= 1 /\
  Rabs (theta_to_r (EquisolidCamera f) theta) <= 2 * f /\
  -1 <= theta_to_r (EquisolidCamera f) theta / (2 * f) <= 1.
Proof.
  intros Hf. simpl. unfold np_sin.
  pose proof (SIN_bound theta) as [S0 S1].
  pose proof (SIN_bound (theta / 2)) as [T0 T1].
  replace (f * sin theta / f) with (sin theta) by (field; lra).
  replace (2 * f * sin (theta / 2) / (2 * f)) with (sin (theta / 2))
    by (field; lra).
  repeat split; try lra.
  - apply Rabs_le. split; nra.
  - apply Rabs_le. split; nra.
Qed.

Lemma X4_witness :
  Rabs (theta_to_r (OrthographicCamera 3) 100) <= 3 /\
  -1 <= theta_to_r (OrthographicCamera 3) 100 / 3 <= 1 /\
  Rabs (theta_to_r (EquisolidCamera 3) 100) <= 2 * 3 /\
  -1 <= theta_to_r (EquisolidCamera 3) 100 / (2 * 3) <= 1.
Proof.
  apply (X4_forward_radii_in_arcsin_domain 3 100). lra.
Defined.

(** ** projection.py: the constructor *)

Lemma py_slice_whole {A : Type} (l : list A) :
  py_slice 0 (0 + Z.of_nat (length l)) l = l.
Proof.
  rewrite py_slice_window by lia.
  rewrite Nat2Z.id. simpl skipn. apply firstn_all.
Qed.

Lemma py_slice2_whole {A : Type} (n : nat) (a : array A) :
  has_shape n n a ->
  py_slice2 0 (0 + Z.of_nat n) 0 (0 + Z.of_nat n) a = a.
Proof.
  intros [Hl Hr]. unfold py_slice2.
  replace (py_slice 0 (0 + Z.of_nat n) a) with a
    by (rewrite <- Hl; symmetry; apply py_slice_whole).
  clear Hl. induction Hr as [| row a Hrow Hr IH]; cbn [map];
    [reflexivity |].
  rewrite IH. f_equal. rewrite <- Hrow. apply py_slice_whole.
Qed.

(** X6: a square source is stored as it was decoded: for an image of [n]
    rows and [n] columns the crop of [read_image] changes nothing, and the
    stored dimensions are [n]. *)
Theorem X6_square_source_is_kept (env : Env) (image_file : string)
  (fov perspective_fov : R) (camera_type format : PyTag)
  (output_shape : option (Z * Z)) (img : Image) (n : nat) :
  os_path_exists env image_file = true ->
  cv2_imread env image_file = Some img ->
  has_shape n n img -> (0 < n)%nat ->
  exists self,
    init env image_file fov perspective_fov camera_type format output_shape
      = inr self /\
    image self = img /\
    _height self = Z.of_nat n /\ _width self = Z.of_nat n.
Proof.
  intros Hex Hrd Hs Hn.
  destruct (read_image_ok env image_file img n n Hex Hrd Hs Hn Hn)
    as (ia & Hia & Himg & _ & Hht & Hwd & _).
  rewrite Z.min_id in Himg, Hht, Hwd.
  rewrite Z.sub_diag in Himg. change (0 / 2)%Z with 0%Z in Himg.
  rewrite (py_slice2_whole n img Hs) in Himg.
  unfold init. rewrite Hia, bind_inr. eexists. split; [reflexivity |].
  simpl. repeat split; assumption.
Qed.

Lemma X6_witness :
  exists self,
    init (env_with (blank_image 6 6)) "fisheye.png" 180 90
      (CameraTag EQUIDISTANT) (FormatTag CIRCULAR) None = inr self /\
    image self = blank_image 6 6 /\
    _height self = 6%Z /\ _width self = 6%Z.
Proof.
  apply (X6_square_source_is_kept (env_with (blank_image 6 6)) "fisheye.png"
           180 90 (CameraTag EQUIDISTANT) (FormatTag CIRCULAR) None
           (blank_image 6 6) 6 eq_refl eq_refl (blank_image_shape 6 6)).
  lia.
Defined.

(** X7: the crop is centred.  For a decoded image of [h] rows and [w]
    columns, [read_image] keeps the columns from [offset_x] and the rows
    from [offset_y], [D = min(w, h)] of each; one of the two offsets is
    zero (columns are dropped only from a wider image, rows only from a
    taller one), and the margin dropped after the window is the margin
    dropped before it, or one pixel more. *)
Theorem X7_crop_margins_balanced (env : Env) (image_file : string)
  (fov perspective_fov : R) (camera_type format : PyTag)
  (output_shape : option (Z * Z)) (img : Image) (h w : nat) :
  os_path_exists env image_file = true ->
  cv2_imread env image_file = Some img ->
  has_shape h w img -> (0 < h)%nat -> (0 < w)%nat ->
  let D := Z.min (Z.of_nat w) (Z.of_nat h) in
  exists self offset_x offset_y,
    init env image_file fov perspective_fov camera_type format output_shape
      = inr self /\
    image self
      = py_slice2 offset_y (offset_y + D) offset_x (offset_x + D) img /\
    (offset_x = 0 \/ offset_y = 0)%Z /\
    (0 <= offset_x <= Z.of_nat w - D - offset_x)%Z /\
    (Z.of_nat w - D - offset_x <= offset_x + 1)%Z /\
    (0 <= offset_y <= Z.of_nat h - D - offset_y)%Z /\
    (Z.of_nat h - D - offset_y <= offset_y + 1)%Z.
Proof.
  intros Hex Hrd Hs Hh Hw D.
  destruct (read_image_ok env image_file img h w Hex Hrd Hs Hh Hw)
    as (ia & Hia & Himg & _).
  fold D in Himg.
  exists {| _image_file := image_file; _fov := fov; _rfov := fov / 2;
            _perspective_fov := perspective_fov; _format := format;
            image := ia_image ia; _height := ia_height ia;
            _width := ia_width ia; _x_center := ia_x_center ia;
            _y_center := ia_y_center ia; _camera_type := camera_type;
            _output_shape := output_shape |},
    ((Z.of_nat w - D) / 2)%Z, ((Z.of_nat h - D) / 2)%Z.
  split; [unfold init; rewrite Hia, bind_inr; reflexivity |].
  split; [exact Himg |].
  assert (HD : (D = Z.of_nat w \/ D = Z.of_nat h)%Z) by (unfold D; lia).
  assert (HDle : (D <= Z.of_nat w /\ D <= Z.of_nat h)%Z) by (unfold D; lia).
  pose proof (Z.div_mod (Z.of_nat w - D) 2 ltac:(lia)) as Ex.
  pose proof (Z.mod_pos_bound (Z.of_nat w - D) 2 ltac:(lia)) as Bx.
  pose proof (Z.div_mod (Z.of_nat h - D) 2 ltac:(lia)) as Ey.
  pose proof (Z.mod_pos_bound (Z.of_nat h - D) 2 ltac:(lia)) as By.
  split.
  { destruct HD as [E | E]; [left | right]; rewrite E, Z.sub_diag;
      reflexivity. }
  lia.
Qed.

Lemma X7_witness :
  exists self offset_x offset_y,
    init (env_with (blank_image 5 8)) "fisheye.png" 180 90
      (CameraTag EQUIDISTANT) (FormatTag CIRCULAR) None = inr self /\
    image self
      = py_slice2 offset_y (offset_y + 5) offset_x (offset_x + 5)
          (blank_image 5 8) /\
    (offset_x = 0 \/ offset_y = 0)%Z /\
    (0 <= offset_x <= 8 - 5 - offset_x)%Z /\
    (8 - 5 - offset_x <= offset_x + 1)%Z /\
    (0 <= offset_y <= 5 - 5 - offset_y)%Z /\
    (5 - 5 - offset_y <= offset_y + 1)%Z.
Proof.
  apply (X7_crop_margins_balanced (env_with (blank_image 5 8)) "fisheye.png"
           180 90 (CameraTag EQUIDISTANT) (FormatTag CIRCULAR) None
           (blank_image 5 8) 5 8 eq_refl eq_refl (blank_image_shape 5 8));
    lia.
Defined.

(** ** projection.py: the geometry of the built maps *)

Lemma np_hypot_nonneg (x y : R) : 0 <= np_hypot x y.
Proof. unfold np_hypot. apply sqrt_pos. Qed.

Lemma np_hypot_sym (x y : R) : np_hypot x y = np_hypot y x.
Proof. unfold np_hypot. f_equal. lra. Qed.

Lemma np_hypot_opp (x y : R) : np_hypot (- x) (- y) = np_hypot x y.
Proof. unfold np_hypot. f_equal. lra. Qed.

Lemma np_hypot_scale (k x y : R) :
  np_hypot (k * x) (k * y) = Rabs k * np_hypot x y.
Proof.
  unfold np_hypot.
  replace (k * x * (k * x) + k * y * (k * y))
    with (Rsqr k * (x * x + y * y)) by (unfold Rsqr; ring).
  rewrite sqrt_mult; [| apply Rle_0_sqr | nra].
  rewrite sqrt_Rsqr_abs. reflexivity.
Qed.

(** The built maps with the masked and the unmasked grid points told
    apart. *)
Lemma built_maps_split (env : Env) (self : FisheyeToPerspective)
  (ct : CameraType) (fmt : FisheyeFormat) :
  _camera_type self = CameraTag ct ->
  _format self = FormatTag fmt ->
  exists dim f cam mx my,
    get_perspective_width self = inr dim /\
    f_from_theta_and_r (CameraTag ct) (np_deg2rad (_rfov self)) (dim / 2)
      = inr f /\
    create_camera (CameraTag ct) f = inr cam /\
    init_undistort_map self (generate_meshgrid self)
      (focal_length_from_fov (_perspective_fov self) dim) dim
      = inr (mx, my) /\
    forall j i : nat,
      (j < Z.to_nat (_height self))%nat ->
      (i < Z.to_nat (_width self))%nat ->
      let x := IZR (Z.of_nat i - _x_center self) in
      let y := IZR (Z.of_nat j - _y_center self) in
      let d := np_hypot x y in
      let pr :=
        theta_to_r cam
          (np_arctan
             (d / focal_length_from_fov (_perspective_fov self) dim)) in
      (d <> 0 ->
       get2 0 mx j i = pr / d * x + IZR (_x_center self) /\
       get2 0 my j i = pr / d * y + IZR (_y_center self)) /\
      (d = 0 -> get2 0 mx j i = 0 /\ get2 0 my j i = 0).
Proof.
  intros Hct Hfmt.
  destruct (built_maps_cells env self ct fmt Hct Hfmt)
    as (dim & f & cam & mx & my & Hdim & Hf & Hcam & Hbuilt & _ & _ & _
        & Hcell).
  exists dim, f, cam, mx, my.
  split; [exact Hdim |]. split; [exact Hf |]. split; [exact Hcam |].
  split; [exact Hbuilt |].
  intros j i Hj Hi x y d pr.
  specialize (Hcell j i Hj Hi). cbv zeta in Hcell.
  fold x y in Hcell. fold d in Hcell. fold pr in Hcell.
  unfold Rneqb in Hcell.
  destruct (Req_dec_T d 0) as [E | N]; split; intros H;
    try contradiction; exact Hcell.
Qed.

(** X8: the built maps are point-symmetric about the centre, the centre
    pixel itself excepted.  For two grid points that mirror each other
    through [(y_center, x_center)] and are not the centre, the
    displacements of their map values from the centre are opposite. *)
Theorem X8_maps_point_symmetric (env : Env) (image_file : string)
  (fov perspective_fov : R) (ct : CameraType) (fmt : FisheyeFormat)
  (output_shape : option (Z * Z)) (self : FisheyeToPerspective) :
  init env image_file fov perspective_fov (CameraTag ct) (FormatTag fmt)
    output_shape = inr self ->
  exists dim map_x map_y,
    get_perspective_width self = inr dim /\
    init_undistort_map self (generate_meshgrid self)
      (focal_length_from_fov perspective_fov dim) dim
      = inr (map_x, map_y) /\
    forall j i j' i' : nat,
      (j < Z.to_nat (_height self))%nat ->
      (i < Z.to_nat (_width self))%nat ->
      (j' < Z.to_nat (_height self))%nat ->
      (i' < Z.to_nat (_width self))%nat ->
      (Z.of_nat i + Z.of_nat i' = 2 * _x_center self)%Z ->
      (Z.of_nat j + Z.of_nat j' = 2 * _y_center self)%Z ->
      (Z.of_nat i <> _x_center self \/ Z.of_nat j <> _y_center self) ->
      get2 0 map_x j' i' - IZR (_x_center self)
        = - (get2 0 map_x j i - IZR (_x_center self)) /\
      get2 0 map_y j' i' - IZR (_y_center self)
        = - (get2 0 map_y j i - IZR (_y_center self)).
Proof.
  intros Hinit.
  destruct (init_inv _ _ _ _ _ _ _ _ Hinit)
    as (ia & _ & _ & _ & Hpfov & Hfmt & Hct & _).
  destruct (built_maps_split env self ct fmt Hct Hfmt)
    as (dim & f & cam & mx & my & Hdim & _ & _ & Hbuilt & Hcell).
  rewrite Hpfov in Hbuilt.
  exists dim, mx, my. split; [exact Hdim |]. split; [exact Hbuilt |].
  intros j i j' i' Hj Hi Hj' Hi' Ei Ej Hnc.
  pose proof (Hcell j i Hj Hi) as [C _].
  pose proof (Hcell j' i' Hj' Hi') as [C' _].
  cbv zeta in C, C'.
  replace (Z.of_nat i' - _x_center self)%Z
    with (- (Z.of_nat i - _x_center self))%Z in C' by lia.
  replace (Z.of_nat j' - _y_center self)%Z
    with (- (Z.of_nat j - _y_center self))%Z in C' by lia.
  rewrite !opp_IZR, np_hypot_opp in C'.
  assert (Hd : np_hypot (IZR (Z.of_nat i - _x_center self))
                 (IZR (Z.of_nat j - _y_center self)) <> 0).
  { intros E. apply np_hypot_eq_0 in E. destruct E as [Ex Ey].
    apply eq_IZR_R0 in Ex. apply eq_IZR_R0 in Ey. lia. }
  destruct (C Hd) as [Cx Cy]. destruct (C' Hd) as [Cx' Cy'].
  rewrite Cx, Cy, Cx', Cy'. split; ring.
Qed.

Lemma X8_witness :
  exists self,
    init (env_with (blank_image 5 5)) "fisheye.png" 180 90
      (CameraTag EQUISOLID) (FormatTag CIRCULAR) None = inr self /\
    exists dim map_x map_y,
      get_perspective_width self = inr dim /\
      init_undistort_map self (generate_meshgrid self)
        (focal_length_from_fov 90 dim) dim = inr (map_x, map_y) /\
      forall j i j' i' : nat,
        (j < Z.to_nat (_height self))%nat ->
        (i < Z.to_nat (_width self))%nat ->
        (j' < Z.to_nat (_height self))%nat ->
        (i' < Z.to_nat (_width self))%nat ->
        (Z.of_nat i + Z.of_nat i' = 2 * _x_center self)%Z ->
        (Z.of_nat j + Z.of_nat j' = 2 * _y_center self)%Z ->
        (Z.of_nat i <> _x_center self \/ Z.of_nat j <> _y_center self) ->
        get2 0 map_x j' i' - IZR (_x_center self)
          = - (get2 0 map_x j i - IZR (_x_center self)) /\
        get2 0 map_y j' i' - IZR (_y_center self)
          = - (get2 0 map_y j i - IZR (_y_center self)).
Proof.
  eexists. split; [reflexivity |].
  exact (X8_maps_point_symmetric (env_with (blank_image 5 5)) "fisheye.png"
           180 90 EQUISOLID CIRCULAR None _ eq_refl).
Defined.

(** X9: the two built maps are transposes of each other: on a readable
    source, [map_y[j][i] = map_x[i][j]] at every grid point (the stored
    image is square and its two centres are equal). *)
Theorem X9_map_y_is_transposed_map_x (env : Env) (image_file : string)
  (fov perspective_fov : R) (ct : CameraType) (fmt : FisheyeFormat)
  (output_shape : option (Z * Z)) (img : Image) (h w : nat) :
  os_path_exists env image_file = true ->
  cv2_imread env image_file = Some img ->
  has_shape h w img -> (0 < h)%nat -> (0 < w)%nat ->
  exists self dim map_x map_y,
    init env image_file fov perspective_fov (CameraTag ct) (FormatTag fmt)
      output_shape = inr self /\
    get_perspective_width self = inr dim /\
    init_undistort_map self (generate_meshgrid self)
      (focal_length_from_fov perspective_fov dim) dim
      = inr (map_x, map_y) /\
    forall j i : nat,
      (j < Nat.min w h)%nat -> (i < Nat.min w h)%nat ->
      get2 0 map_y j i = get2 0 map_x i j.
Proof.
  intros Hex Hrd Hs Hh Hw.
  destruct (init_dimensions env image_file fov perspective_fov
              (CameraTag ct) (FormatTag fmt) output_shape img h w
              Hex Hrd Hs Hh Hw)
    as (self & Hinit & Hht & Hwd & Hxc & Hyc).
  destruct (init_inv _ _ _ _ _ _ _ _ Hinit)
    as (ia & _ & _ & _ & Hpfov & Hfmt & Hct & _).
  destruct (built_maps_split env self ct fmt Hct Hfmt)
    as (dim & f & cam & mx & my & Hdim & _ & _ & Hbuilt & Hcell).
  rewrite Hpfov in Hbuilt.
  exists self, dim, mx, my.
  split; [exact Hinit |]. split; [exact Hdim |]. split; [exact Hbuilt |].
  intros j i Hj Hi.
  assert (Hjh : (j < Z.to_nat (_height self))%nat) by (rewrite Hht; lia).
  assert (Hjw : (j < Z.to_nat (_width self))%nat) by (rewrite Hwd; lia).
  assert (Hih : (i < Z.to_nat (_height self))%nat) by (rewrite Hht; lia).
  assert (Hiw : (i < Z.to_nat (_width self))%nat) by (rewrite Hwd; lia).
  pose proof (Hcell j i Hjh Hiw) as [C C0].
  pose proof (Hcell i j Hih Hjw) as [T T0].
  cbv zeta in C, C0, T, T0.
  assert (Ec : _y_center self = _x_center self) by congruence.
  rewrite Ec in *.
  rewrite (np_hypot_sym (IZR (Z.of_nat j - _x_center self))
             (IZR (Z.of_nat i - _x_center self))) in T, T0.
  destruct (Req_dec_T
              (np_hypot (IZR (Z.of_nat i - _x_center self))
                 (IZR (Z.of_nat j - _x_center self))) 0) as [E | N].
  - rewrite (proj2 (C0 E)), (proj1 (T0 E)). reflexivity.
  - rewrite (proj2 (C N)), (proj1 (T N)). reflexivity.
Qed.

Lemma X9_witness :
  exists self dim map_x map_y,
    init (env_with (blank_image 4 6)) "fisheye.png" 180 90
      (CameraTag ORTHOGRAPHIC) (FormatTag DIAGONAL) None = inr self /\
    get_perspective_width self = inr dim /\
    init_undistort_map self (generate_meshgrid self)
      (focal_length_from_fov 90 dim) dim = inr (map_x, map_y) /\
    forall j i : nat,
      (j < Nat.min 6 4)%nat -> (i < Nat.min 6 4)%nat ->
      get2 0 map_y j i = get2 0 map_x i j.
Proof.
  apply (X9_map_y_is_transposed_map_x (env_with (blank_image 4 6))
           "fisheye.png" 180 90 ORTHOGRAPHIC DIAGONAL None
           (blank_image 4 6) 4 6 eq_refl eq_refl (blank_image_shape 4 6));
    lia.
Defined.

(** X10: the maps rescale radially.  At every grid point other than the
    centre, the map value lies on the line through the centre and the
    grid point, and its distance from the centre is the absolute value of
    [theta_to_r(arctan(distorted_r / perspective_focal))]. *)
Theorem X10_radial_rescaling_geometry (env : Env) (image_file : string)
  (fov perspective_fov : R) (ct : CameraType) (fmt : FisheyeFormat)
  (output_shape : option (Z * Z)) (self : FisheyeToPerspective) :
  init env image_file fov perspective_fov (CameraTag ct) (FormatTag fmt)
    output_shape = inr self ->
  exists dim f cam map_x map_y,
    get_perspective_width self = inr dim /\
    f_from_theta_and_r (CameraTag ct) (np_deg2rad (fov / 2)) (dim / 2)
      = inr f /\
    create_camera (CameraTag ct) f = inr cam /\
    init_undistort_map self (generate_meshgrid self)
      (focal_length_from_fov perspective_fov dim) dim
      = inr (map_x, map_y) /\
    forall j i : nat,
      (j < Z.to_nat (_height self))%nat ->
      (i < Z.to_nat (_width self))%nat ->
      let x := IZR (Z.of_nat i - _x_center self) in
      let y := IZR (Z.of_nat j - _y_center self) in
      let u := get2 0 map_x j i - IZR (_x_center self) in
      let v := get2 0 map_y j i - IZR (_y_center self) in
      np_hypot x y <> 0 ->
      u * y = v * x /\
      np_hypot u v
      = Rabs (theta_to_r cam
                (np_arctan
                   (np_hypot x y
                    / focal_length_from_fov perspective_fov dim))).
Proof.
  intros Hinit.
  destruct (init_inv _ _ _ _ _ _ _ _ Hinit)
    as (ia & _ & _ & Hrfov & Hpfov & Hfmt & Hct & _).
  destruct (built_maps_split env self ct fmt Hct Hfmt)
    as (dim & f & cam & mx & my & Hdim & Hf & Hcam & Hbuilt & Hcell).
  rewrite Hpfov in Hbuilt, Hcell. rewrite Hrfov in Hf.
  exists dim, f, cam, mx, my.
  split; [exact Hdim |]. split; [exact Hf |]. split; [exact Hcam |].
  split; [exact Hbuilt |].
  intros j i Hj Hi x y u v Hd.
  destruct (Hcell j i Hj Hi) as [C _]. cbv zeta in C.
  fold x y in C. destruct (C Hd) as [Cx Cy].
  set (pr := theta_to_r cam
               (np_arctan
                  (np_hypot x y
                   / focal_length_from_fov perspective_fov dim))) in *.
  assert (Eu : u = pr / np_hypot x y * x) by (unfold u; rewrite Cx; ring).
  assert (Ev : v = pr / np_hypot x y * y) by (unfold v; rewrite Cy; ring).
  rewrite Eu, Ev. split; [ring |].
  rewrite np_hypot_scale.
  pose proof (np_hypot_nonneg x y) as Hn.
  unfold Rdiv. rewrite Rabs_mult.
  rewrite (Rabs_pos_eq (/ np_hypot x y))
    by (left; apply Rinv_0_lt_compat; lra).
  field. exact Hd.
Qed.

Lemma X10_witness :
  exists self,
    init (env_with (blank_image 5 5)) "fisheye.png" 180 90
      (CameraTag EQUIDISTANT) (FormatTag CIRCULAR) None = inr self /\
    exists dim f cam map_x map_y,
      get_perspective_width self = inr dim /\
      f_from_theta_and_r (CameraTag EQUIDISTANT) (np_deg2rad (180 / 2))
        (dim / 2) = inr f /\
      create_camera (CameraTag EQUIDISTANT) f = inr cam /\
      init_undistort_map self (generate_meshgrid self)
        (focal_length_from_fov 90 dim) dim = inr (map_x, map_y) /\
      forall j i : nat,
        (j < Z.to_nat (_height self))%nat ->
        (i < Z.to_nat (_width self))%nat ->
        let x := IZR (Z.of_nat i - _x_center self) in
        let y := IZR (Z.of_nat j - _y_center self) in
        let u := get2 0 map_x j i - IZR (_x_center self) in
        let v := get2 0 map_y j i - IZR (_y_center self) in
        np_hypot x y <> 0 ->
        u * y = v * x /\
        np_hypot u v
        = Rabs (theta_to_r cam
                  (np_arctan
                     (np_hypot x y / focal_length_from_fov 90 dim))).
Proof.
  eexists. split; [reflexivity |].
  exact (X10_radial_rescaling_geometry (env_with (blank_image 5 5))
           "fisheye.png" 180 90 EQUIDISTANT CIRCULAR None _ eq_refl).
Defined.

Lemma np_arctan_pos_range (q : R) : 0 < q -> 0 < np_arctan q < PI / 2.
Proof.
  intros Hq. unfold np_arctan.
  pose proof (atan_bound q) as [_ Hb].
  pose proof (atan_increasing 0 q Hq) as Hi. rewrite atan_0 in Hi.
  lra.
Qed.

(** On a readable source, with a fisheye field of view strictly between 0
    and 360 degrees and a perspective one strictly between 0 and 180: the
    calibrated camera, and at every grid point other than the centre the
    angle, the fisheye radius and the distance of the map value from the
    centre. *)
Lemma built_maps_calibrated (env : Env) (image_file : string)
  (fov perspective_fov : R) (ct : CameraType) (fmt : FisheyeFormat)
  (output_shape : option (Z * Z)) (img : Image) (h w : nat) :
  os_path_exists env image_file = true ->
  cv2_imread env image_file = Some img ->
  has_shape h w img -> (0 < h)%nat -> (0 < w)%nat ->
  0 < fov < 360 -> 0 < perspective_fov < 180 ->
  exists self dim f cam mx my,
    init env image_file fov perspective_fov (CameraTag ct) (FormatTag fmt)
      output_shape = inr self /\
    get_perspective_width self = inr dim /\
    f_from_theta_and_r (CameraTag ct) (np_deg2rad (fov / 2)) (dim / 2)
      = inr f /\
    create_camera (CameraTag ct) f = inr cam /\
    init_undistort_map self (generate_meshgrid self)
      (focal_length_from_fov perspective_fov dim) dim = inr (mx, my) /\
    0 < dim /\ 0 < focal_length cam /\
    0 < focal_length_from_fov perspective_fov dim /\
    theta_to_r cam (np_deg2rad (fov / 2)) = dim / 2 /\
    forall j i : nat,
      (j < Z.to_nat (_height self))%nat ->
      (i < Z.to_nat (_width self))%nat ->
      let x := IZR (Z.of_nat i - _x_center self) in
      let y := IZR (Z.of_nat j - _y_center self) in
      let d := np_hypot x y in
      let theta :=
        np_arctan (d / focal_length_from_fov perspective_fov dim) in
      d <> 0 ->
      0 < d /\ 0 < theta < PI / 2 /\ 0 < theta_to_r cam theta /\
      get2 0 mx j i = theta_to_r cam theta / d * x + IZR (_x_center self) /\
      get2 0 my j i = theta_to_r cam theta / d * y + IZR (_y_center self) /\
      np_hypot (get2 0 mx j i - IZR (_x_center self))
        (get2 0 my j i - IZR (_y_center self))
      = theta_to_r cam theta.
Proof.
  intros Hex Hrd Hs Hh Hw Hfov Hpfov.
  destruct (init_dimensions env image_file fov perspective_fov
              (CameraTag ct) (FormatTag fmt) output_shape img h w
              Hex Hrd Hs Hh Hw)
    as (self & Hinit & Hht & Hwd & _).
  destruct (init_inv _ _ _ _ _ _ _ _ Hinit)
    as (ia & _ & _ & Hrfov & Hpfov' & Hfmt & Hct & _).
  destruct (built_maps_split env self ct fmt Hct Hfmt)
    as (dim & f & cam & mx & my & Hdim & Hf & Hcam & Hbuilt & Hcell).
  rewrite Hpfov' in Hbuilt, Hcell. rewrite Hrfov in Hf.
  assert (Hdpos : 0 < dim).
  { apply (get_perspective_width_pos self dim); [lia | lia | exact Hdim]. }
  pose proof (np_radians_half_range fov Hfov) as Hth.
  assert (Hfpos : 0 < f).
  { apply (f_from_theta_and_r_pos ct (np_deg2rad (fov / 2)) (dim / 2) f);
      [exact Hth | lra | exact Hf]. }
  assert (Hfl : focal_length cam = f).
  { destruct (create_camera_focal ct f) as (cam' & Hcam' & Hfl).
    congruence. }
  pose proof (focal_length_from_fov_pos perspective_fov dim Hpfov Hdpos)
    as Hpf.
  exists self, dim, f, cam, mx, my.
  split; [exact Hinit |]. split; [exact Hdim |]. split; [exact Hf |].
  split; [exact Hcam |]. split; [exact Hbuilt |]. split; [exact Hdpos |].
  split; [rewrite Hfl; exact Hfpos |]. split; [exact Hpf |].
  split; [exact (theta_to_r_calibrated ct _ _ f cam Hth Hf Hcam) |].
  intros j i Hj Hi x y d theta Hd.
  destruct (Hcell j i Hj Hi) as [C _]. cbv zeta in C.
  fold x y in C. fold d in C. fold theta in C.
  destruct (C Hd) as [Cx Cy].
  pose proof (np_hypot_nonneg x y) as Hn. fold d in Hn.
  assert (Hdp : 0 < d) by lra.
  assert (Hq : 0 < d / focal_length_from_fov perspective_fov dim)
    by (apply Rmult_lt_0_compat; [exact Hdp | apply Rinv_0_lt_compat, Hpf]).
  pose proof (np_arctan_pos_range _ Hq) as Hrange. fold theta in Hrange.
  assert (Hpr : 0 < theta_to_r cam theta).
  { rewrite <- (theta_to_r_0 cam).
    apply theta_to_r_increasing_closed; [rewrite Hfl; exact Hfpos | lra ..]. }
  split; [exact Hdp |]. split; [exact Hrange |]. split; [exact Hpr |].
  split; [exact Cx |]. split; [exact Cy |].
  rewrite Cx, Cy.
  replace (theta_to_r cam theta / d * x + IZR (_x_center self)
           - IZR (_x_center self))
    with (theta_to_r cam theta / d * x) by ring.
  replace (theta_to_r cam theta / d * y + IZR (_y_center self)
           - IZR (_y_center self))
    with (theta_to_r cam theta / d * y) by ring.
  rewrite np_hypot_scale. fold d.
  rewrite Rabs_pos_eq.
  - field. exact Hd.
  - left. apply Rmult_lt_0_compat; [exact Hpr | apply Rinv_0_lt_compat, Hdp].
Qed.

(** X11: which perspective pixels are fetched from inside the fisheye
    circle.  On a readable source, with [0 < fov <= 180] and
    [0 < perspective_fov < 180], the map value of a grid point other than
    the centre lies at a distance below [dim / 2] from the centre exactly
    when its angle [arctan(distorted_r / perspective_focal)] is below the
    half field of view [deg2rad(fov / 2)]; with [fov = 180] this is so at
    every such grid point. *)
Theorem X11_sources_inside_fisheye_circle (env : Env) (image_file : string)
  (fov perspective_fov : R) (ct : CameraType) (fmt : FisheyeFormat)
  (output_shape : option (Z * Z)) (img : Image) (h w : nat) :
  os_path_exists env image_file = true ->
  cv2_imread env image_file = Some img ->
  has_shape h w img -> (0 < h)%nat -> (0 < w)%nat ->
  0 < fov <= 180 -> 0 < perspective_fov < 180 ->
  exists self dim map_x map_y,
    init env image_file fov perspective_fov (CameraTag ct) (FormatTag fmt)
      output_shape = inr self /\
    get_perspective_width self = inr dim /\
    init_undistort_map self (generate_meshgrid self)
      (focal_length_from_fov perspective_fov dim) dim
      = inr (map_x, map_y) /\
    forall j i : nat,
      (j < Z.to_nat (_height self))%nat ->
      (i < Z.to_nat (_width self))%nat ->
      let x := IZR (Z.of_nat i - _x_center self) in
      let y := IZR (Z.of_nat j - _y_center self) in
      let theta :=
        np_arctan
          (np_hypot x y / focal_length_from_fov perspective_fov dim) in
      let u := get2 0 map_x j i - IZR (_x_center self) in
      let v := get2 0 map_y j i - IZR (_y_center self) in
      np_hypot x y <> 0 ->
      (np_hypot u v < dim / 2 <-> theta < np_deg2rad (fov / 2)) /\
      (fov = 180 -> np_hypot u v < dim / 2).
Proof.
  intros Hex Hrd Hs Hh Hw Hfov Hpfov.
  destruct (built_maps_calibrated env image_file fov perspective_fov ct fmt
              output_shape img h w Hex Hrd Hs Hh Hw ltac:(lra) Hpfov)
    as (self & dim & f & cam & mx & my & Hinit & Hdim & _ & _ & Hbuilt
        & Hdpos & Hfl & _ & Hcal & Hcell).
  exists self, dim, mx, my.
  split; [exact Hinit |]. split; [exact Hdim |]. split; [exact Hbuilt |].
  intros j i Hj Hi x y theta u v Hd.
  destruct (Hcell j i Hj Hi Hd) as (_ & Hth & _ & _ & _ & Hr).
  fold x y in Hr, Hth. fold theta in Hr, Hth. fold u v in Hr.
  rewrite Hr, <- Hcal.
  pose proof PI_pos as HPI.
  assert (Hmax : 0 < np_deg2rad (fov / 2) <= PI / 2)
    by (unfold np_deg2rad; split; nra).
  assert (Hiff : theta_to_r cam theta
                 < theta_to_r cam (np_deg2rad (fov / 2))
                 <-> theta < np_deg2rad (fov / 2)).
  { split.
    - intros Hlt.
      destruct (Rlt_le_dec theta (np_deg2rad (fov / 2))) as [L | G];
        [exact L | exfalso].
      destruct G as [G | E].
      + assert (theta_to_r cam (np_deg2rad (fov / 2))
                < theta_to_r cam theta)
          by (apply theta_to_r_increasing_closed; lra).
        lra.
      + rewrite E in Hlt. lra.
    - intros Hlt. apply theta_to_r_increasing_closed; lra. }
  split; [exact Hiff |].
  intros E. apply Hiff. subst fov. unfold np_deg2rad. lra.
Qed.

Lemma X11_witness :
  exists self dim map_x map_y,
    init (env_with (blank_image 6 6)) "fisheye.png" 180 90
      (CameraTag STEREOGRAPHIC) (FormatTag CIRCULAR) None = inr self /\
    get_perspective_width self = inr dim /\
    init_undistort_map self (generate_meshgrid self)
      (focal_length_from_fov 90 dim) dim = inr (map_x, map_y) /\
    forall j i : nat,
      (j < Z.to_nat (_height self))%nat ->
      (i < Z.to_nat (_width self))%nat ->
      let x := IZR (Z.of_nat i - _x_center self) in
      let y := IZR (Z.of_nat j - _y_center self) in
      let theta :=
        np_arctan (np_hypot x y / focal_length_from_fov 90 dim) in
      let u := get2 0 map_x j i - IZR (_x_center self) in
      let v := get2 0 map_y j i - IZR (_y_center self) in
      np_hypot x y <> 0 ->
      (np_hypot u v < dim / 2 <-> theta < np_deg2rad (180 / 2)) /\
      (180 = 180 -> np_hypot u v < dim / 2).
Proof.
  apply (X11_sources_inside_fisheye_circle (env_with (blank_image 6 6))
           "fisheye.png" 180 90 STEREOGRAPHIC CIRCULAR None
           (blank_image 6 6) 6 6 eq_refl eq_refl (blank_image_shape 6 6));
    try lia; lra.
Defined.

(** X12: with [perspective_fov = fov], strictly between 0 and 180, the
    grid points at the distance [dim / 2] from the centre are fixed
    points: their map value is their own position [(i, j)]. *)
Theorem X12_rim_is_fixed_when_fovs_agree (env : Env) (image_file : string)
  (fov : R) (ct : CameraType) (fmt : FisheyeFormat)
  (output_shape : option (Z * Z)) (img : Image) (h w : nat) :
  os_path_exists env image_file = true ->
  cv2_imread env image_file = Some img ->
  has_shape h w img -> (0 < h)%nat -> (0 < w)%nat ->
  0 < fov < 180 ->
  exists self dim map_x map_y,
    init env image_file fov fov (CameraTag ct) (FormatTag fmt) output_shape
      = inr self /\
    get_perspective_width self = inr dim /\
    init_undistort_map self (generate_meshgrid self)
      (focal_length_from_fov fov dim) dim = inr (map_x, map_y) /\
    forall j i : nat,
      (j < Z.to_nat (_height self))%nat ->
      (i < Z.to_nat (_width self))%nat ->
      np_hypot (IZR (Z.of_nat i - _x_center self))
        (IZR (Z.of_nat j - _y_center self)) = dim / 2 ->
      get2 0 map_x j i = IZR (Z.of_nat i) /\
      get2 0 map_y j i = IZR (Z.of_nat j).
Proof.
  intros Hex Hrd Hs Hh Hw Hfov.
  destruct (built_maps_calibrated env image_file fov fov ct fmt
              output_shape img h w Hex Hrd Hs Hh Hw ltac:(lra) Hfov)
    as (self & dim & f & cam & mx & my & Hinit & Hdim & _ & _ & Hbuilt
        & Hdpos & Hfl & Hpf & Hcal & Hcell).
  exists self, dim, mx, my.
  split; [exact Hinit |]. split; [exact Hdim |]. split; [exact Hbuilt |].
  intros j i Hj Hi Hd.
  assert (Hnz : np_hypot (IZR (Z.of_nat i - _x_center self))
                  (IZR (Z.of_nat j - _y_center self)) <> 0) by lra.
  destruct (Hcell j i Hj Hi Hnz) as (_ & _ & _ & Cx & Cy & _).
  cbv zeta in Cx, Cy. rewrite Hd in Cx, Cy.
  pose proof PI_pos as HPI.
  assert (Ha : 0 < fov * (PI / 180) / 2 < PI / 2) by (split; nra).
  assert (Ht : 0 < tan (fov * (PI / 180) / 2))
    by (apply tan_gt_0; lra).
  assert (Eq : dim / 2 / focal_length_from_fov fov dim
               = tan (fov * (PI / 180) / 2)).
  { unfold focal_length_from_fov, np_tan, np_radians. field. lra. }
  assert (Eth : np_arctan (dim / 2 / focal_length_from_fov fov dim)
                = np_deg2rad (fov / 2)).
  { rewrite Eq. unfold np_arctan, np_deg2rad.
    rewrite atan_tan by lra. lra. }
  rewrite Eth, Hcal in Cx, Cy.
  rewrite Cx, Cy, !minus_IZR. split; field; lra.
Qed.

Lemma X12_witness :
  exists self map_x map_y,
    init (env_with (blank_image 4 4)) "fisheye.png" 90 90
      (CameraTag EQUISOLID) (FormatTag CIRCULAR) None = inr self /\
    init_undistort_map self (generate_meshgrid self)
      (focal_length_from_fov 90 4) 4 = inr (map_x, map_y) /\
    get2 0 map_x 1 3 = 3 /\ get2 0 map_y 1 3 = 1.
Proof.
  destruct (X12_rim_is_fixed_when_fovs_agree (env_with (blank_image 4 4))
              "fisheye.png" 90 EQUISOLID CIRCULAR None (blank_image 4 4)
              4 4 eq_refl eq_refl (blank_image_shape 4 4))
    as (self & dim & mx & my & Hinit & Hdim & Hbuilt & Hfix);
    [lia | lia | lra |].
  destruct (init_dimensions (env_with (blank_image 4 4)) "fisheye.png"
              90 90 (CameraTag EQUISOLID) (FormatTag CIRCULAR) None
              (blank_image 4 4) 4 4 eq_refl eq_refl (blank_image_shape 4 4))
    as (self' & Hinit' & Hht & Hwd & Hxc & Hyc); [lia | lia |].
  rewrite Hinit in Hinit'. injection Hinit' as <-.
  change (Z.min (Z.of_nat 4) (Z.of_nat 4)) with 4%Z in Hht, Hwd.
  change ((Z.min (Z.of_nat 4) (Z.of_nat 4) - 1) / 2)%Z with 1%Z in Hxc, Hyc.
  destruct (init_inv _ _ _ _ _ _ _ _ Hinit)
    as (ia & _ & _ & _ & _ & Hfmt & _).
  assert (Ed : dim = 4).
  { unfold get_perspective_width in Hdim. rewrite Hfmt, Hht, Hwd in Hdim.
    unfold ret in Hdim. injection Hdim as <-. reflexivity. }
  subst dim.
  exists self, mx, my. split; [exact Hinit |]. split; [exact Hbuilt |].
  apply (Hfix 1%nat 3%nat).
  - rewrite Hht. lia.
  - rewrite Hwd. lia.
  - rewrite Hxc, Hyc.
    change (Z.of_nat 3 - 1)%Z with 2%Z. change (Z.of_nat 1 - 1)%Z with 0%Z.
    unfold np_hypot. replace (2 * 2 + 0 * 0) with (2 * 2) by lra.
    rewrite sqrt_square by lra. lra.
Defined.

(** X13: the maps keep the radial order.  On a readable source, with
    [0 < fov < 360] and [0 < perspective_fov < 180], of two grid points
    other than the centre the one farther from the centre has its map
    value farther from the centre. *)
Theorem X13_maps_keep_radial_order (env : Env) (image_file : string)
  (fov perspective_fov : R) (ct : CameraType) (fmt : FisheyeFormat)
  (output_shape : option (Z * Z)) (img : Image) (h w : nat) :
  os_path_exists env image_file = true ->
  cv2_imread env image_file = Some img ->
  has_shape h w img -> (0 < h)%nat -> (0 < w)%nat ->
  0 < fov < 360 -> 0 < perspective_fov < 180 ->
  exists self dim map_x map_y,
    init env image_file fov perspective_fov (CameraTag ct) (FormatTag fmt)
      output_shape = inr self /\
    get_perspective_width self = inr dim /\
    init_undistort_map self (generate_meshgrid self)
      (focal_length_from_fov perspective_fov dim) dim
      = inr (map_x, map_y) /\
    forall j1 i1 j2 i2 : nat,
      (j1 < Z.to_nat (_height self))%nat ->
      (i1 < Z.to_nat (_width self))%nat ->
      (j2 < Z.to_nat (_height self))%nat ->
      (i2 < Z.to_nat (_width self))%nat ->
      let d1 := np_hypot (IZR (Z.of_nat i1 - _x_center self))
                  (IZR (Z.of_nat j1 - _y_center self)) in
      let d2 := np_hypot (IZR (Z.of_nat i2 - _x_center self))
                  (IZR (Z.of_nat j2 - _y_center self)) in
      0 < d1 -> d1 < d2 ->
      np_hypot (get2 0 map_x j1 i1 - IZR (_x_center self))
        (get2 0 map_y j1 i1 - IZR (_y_center self))
      < np_hypot (get2 0 map_x j2 i2 - IZR (_x_center self))
          (get2 0 map_y j2 i2 - IZR (_y_center self)).
Proof.
  intros Hex Hrd Hs Hh Hw Hfov Hpfov.
  destruct (built_maps_calibrated env image_file fov perspective_fov ct fmt
              output_shape img h w Hex Hrd Hs Hh Hw Hfov Hpfov)
    as (self & dim & f & cam & mx & my & Hinit & Hdim & _ & _ & Hbuilt
        & Hdpos & Hfl & Hpf & _ & Hcell).
  exists self, dim, mx, my.
  split; [exact Hinit |]. split; [exact Hdim |]. split; [exact Hbuilt |].
  intros j1 i1 j2 i2 Hj1 Hi1 Hj2 Hi2 d1 d2 H1 H12.
  destruct (Hcell j1 i1 Hj1 Hi1 ltac:(fold d1; lra))
    as (_ & Ht1 & _ & _ & _ & R1).
  destruct (Hcell j2 i2 Hj2 Hi2 ltac:(fold d2; lra))
    as (_ & Ht2 & _ & _ & _ & R2).
  fold d1 in R1, Ht1. fold d2 in R2, Ht2. rewrite R1, R2.
  apply theta_to_r_increasing_closed; [exact Hfl | lra | | lra].
  unfold np_arctan. apply atan_increasing.
  unfold Rdiv. apply Rmult_lt_compat_r; [apply Rinv_0_lt_compat, Hpf | lra].
Qed.

Lemma X13_witness :
  exists self dim map_x map_y,
    init (env_with (blank_image 6 6)) "fisheye.png" 180 120
      (CameraTag ORTHOGRAPHIC) (FormatTag DIAGONAL) None = inr self /\
    get_perspective_width self = inr dim /\
    init_undistort_map self (generate_meshgrid self)
      (focal_length_from_fov 120 dim) dim = inr (map_x, map_y) /\
    forall j1 i1 j2 i2 : nat,
      (j1 < Z.to_nat (_height self))%nat ->
      (i1 < Z.to_nat (_width self))%nat ->
      (j2 < Z.to_nat (_height self))%nat ->
      (i2 < Z.to_nat (_width self))%nat ->
      let d1 := np_hypot (IZR (Z.of_nat i1 - _x_center self))
                  (IZR (Z.of_nat j1 - _y_center self)) in
      let d2 := np_hypot (IZR (Z.of_nat i2 - _x_center self))
                  (IZR (Z.of_nat j2 - _y_center self)) in
      0 < d1 -> d1 < d2 ->
      np_hypot (get2 0 map_x j1 i1 - IZR (_x_center self))
        (get2 0 map_y j1 i1 - IZR (_y_center self))
      < np_hypot (get2 0 map_x j2 i2 - IZR (_x_center self))
          (get2 0 map_y j2 i2 - IZR (_y_center self)).
Proof.
  apply (X13_maps_keep_radial_order (env_with (blank_image 6 6))
           "fisheye.png" 180 120 ORTHOGRAPHIC DIAGONAL None
           (blank_image 6 6) 6 6 eq_refl eq_refl (blank_image_shape 6 6));
    try lia; lra.
Defined.

(** X14: for a positive width, [focal_length_from_fov] is positive and
    strictly decreasing in the field of view on (0, 180) degrees: a wider
    perspective view has a shorter focal length. *)
Theorem X14_focal_length_from_fov_decreasing (fov1 fov2 width : R) :
  0 < fov1 -> fov1 < fov2 -> fov2 < 180 -> 0 < width ->
  0 < focal_length_from_fov fov2 width /\
  focal_length_from_fov fov2 width < focal_length_from_fov fov1 width.
Proof.
  intros H1 H12 H2 Hw. pose proof PI_pos as HPI.
  split; [apply focal_length_from_fov_pos; lra |].
  unfold focal_length_from_fov, np_tan, np_radians.
  assert (T1 : 0 < tan (fov1 * (PI / 180) / 2)) by (apply tan_gt_0; nra).
  assert (T12 : tan (fov1 * (PI / 180) / 2) < tan (fov2 * (PI / 180) / 2))
    by (apply tan_increasing; nra).
  unfold Rdiv. apply Rmult_lt_compat_l; [exact Hw |].
  apply Rinv_lt_contravar; nra.
Qed.

Lemma X14_witness :
  0 < focal_length_from_fov 120 512 /\
  focal_length_from_fov 120 512 < focal_length_from_fov 90 512.
Proof.
  apply (X14_focal_length_from_fov_decreasing 90 120 512); lra.
Defined.

(** ** The rest of __call__, cli.py and scripts/main.py *)


Lemma call_known (env : Env) (image_file : string)
  (fov perspective_fov : R) (ct : CameraType) (fmt : FisheyeFormat)
  (img : Image) (h w : nat) :
  os_path_exists env image_file = true ->
  cv2_imread env image_file = Some img ->
  has_shape h w img -> (0 < h)%nat -> (0 < w)%nat ->
  exists self rendered,
    init env image_file fov perspective_fov (CameraTag ct) (FormatTag fmt)
      None = inr self /\
    call env self = inr rendered.
Proof.
  intros Hex Hrd Hs Hh Hw.
  destruct (init_ok env image_file fov perspective_fov (CameraTag ct)
              (FormatTag fmt) None img h w Hex Hrd Hs Hh Hw) as [self Hself].
  destruct (init_inv _ _ _ _ _ _ _ _ Hself)
    as (ia & _ & _ & _ & _ & Hfmt & Hct & Hout & _).
  destruct (undistort_maps_known env self ct fmt Hct Hfmt Hout)
    as (mx & my & _ & Hcall).
  exists self. eexists. split; [exact Hself | exact Hcall].
Qed.

Lemma call_imwrite_some (env : Env)
  (cv2_imwrite : string -> Image -> ImwriteOutcome)
  (self : FisheyeToPerspective) (path : string) :
  call_imwrite env cv2_imwrite self (Some path)
  = match call env self with
    | inl e => ([], inl (CoreExn e))
    | inr img =>
        match cv2_imwrite path img with
        | ImwriteTrue => ([Imwrite path img], inr img)
        | ImwriteFalse => ([], inr img)
        | ImwriteError msg => ([], inl (Cv2Error msg))
        end
    end.
Proof.
  unfold call_imwrite, call.
  destruct (undistort_maps env self) as [e | maps]; reflexivity.
Qed.

(** X15: the command of cli.py prints "Saved image" with the name of the
    output file exactly in the runs that end without an exception; a file
    is written only in such a run, and only to [output_file].  On a
    readable source, with camera type and format left out or taken from
    the enumerations, [cv2.imwrite] alone decides the run: when it returns
    [True] the image that [__call__] returns is written and the line is
    printed; when it returns [False] the line is printed although nothing
    was written; when it raises [cv2.error] nothing is printed.  Arguments
    left out are [fov = 180], [perspective_fov = 120], the equidistant
    camera and the circular format. *)
Theorem X15_cli_reports_unless_imwrite_raises (env : Env)
  (cv2_imwrite : string -> Image -> ImwriteOutcome)
  (input_file output_file : string) (fov perspective_fov : option R)
  (camera_type format : option PyTag) :
  let run :=
    cli_fisheye_to_perspective env cv2_imwrite input_file output_file fov
      perspective_fov camera_type format in
  let constructed :=
    init env input_file (with_default 180 fov)
      (with_default 120 perspective_fov)
      (with_default (CameraTag EQUIDISTANT) camera_type)
      (with_default (FormatTag CIRCULAR) format) None in
  (In (Echo ("Saved image " ++ output_file)) (fst run)
   <-> snd run = inr tt) /\
  (forall path written,
     In (Imwrite path written) (fst run) ->
     path = output_file /\ snd run = inr tt) /\
  (forall (img : Image) (h w : nat) (ct : CameraType) (fmt : FisheyeFormat),
     os_path_exists env input_file = true ->
     cv2_imread env input_file = Some img ->
     has_shape h w img -> (0 < h)%nat -> (0 < w)%nat ->
     with_default (CameraTag EQUIDISTANT) camera_type = CameraTag ct ->
     with_default (FormatTag CIRCULAR) format = FormatTag fmt ->
     exists self rendered,
       constructed = inr self /\ call env self = inr rendered /\
       match cv2_imwrite output_file rendered with
       | ImwriteTrue =>
           run = ([Imwrite output_file rendered;
                   Echo ("Saved image " ++ output_file)], inr tt)
       | ImwriteFalse =>
           run = ([Echo ("Saved image " ++ output_file)], inr tt)
       | ImwriteError msg => run = ([], inl (Cv2Error msg))
       end).
Proof.
  intros run constructed.
  assert (Hrun :
    run = match constructed with
          | inl e => ([], inl (CoreExn e))
          | inr self =>
              match call env self with
              | inl e => ([], inl (CoreExn e))
              | inr img =>
                  match cv2_imwrite output_file img with
                  | ImwriteTrue =>
                      ([Imwrite output_file img;
                        Echo ("Saved image " ++ output_file)], inr tt)
                  | ImwriteFalse =>
                      ([Echo ("Saved image " ++ output_file)], inr tt)
                  | ImwriteError msg => ([], inl (Cv2Error msg))
                  end
              end
          end).
  { unfold run, cli_fisheye_to_perspective. fold constructed.
    destruct constructed as [e | self]; [reflexivity |].
    rewrite call_imwrite_some.
    destruct (call env self) as [e | img]; [reflexivity |].
    destruct (cv2_imwrite output_file img); reflexivity. }
  split; [| split].
  - rewrite Hrun.
    destruct constructed as [e | self]; cbn [fst snd].
    + split; [intros [] | discriminate].
    + destruct (call env self) as [e | img]; cbn [fst snd].
      * split; [intros [] | discriminate].
      * destruct (cv2_imwrite output_file img); cbn [fst snd].
        -- split; [reflexivity | intros _; right; left; reflexivity].
        -- split; [reflexivity | intros _; left; reflexivity].
        -- split; [intros [] | discriminate].
  - intros path written. rewrite Hrun.
    destruct constructed as [e | self]; cbn [fst snd]; [intros [] |].
    destruct (call env self) as [e | img]; cbn [fst snd]; [intros [] |].
    destruct (cv2_imwrite output_file img); cbn [fst snd].
    + intros [H | [H | []]]; [| discriminate H].
      injection H as <- _. split; reflexivity.
    + intros [H | []]. discriminate H.
    + intros [].
  - intros img h w ct fmt Hex Hrd Hs Hh Hw Hct Hfmt.
    destruct (call_known env input_file (with_default 180 fov)
                (with_default 120 perspective_fov) ct fmt img h w
                Hex Hrd Hs Hh Hw) as (self & rendered & Hinit & Hcall).
    assert (Hc : constructed = inr self)
      by (unfold constructed; rewrite Hct, Hfmt; exact Hinit).
    exists self, rendered. split; [exact Hc |]. split; [exact Hcall |].
    rewrite Hrun, Hc, Hcall.
    destruct (cv2_imwrite output_file rendered); reflexivity.
Qed.

Lemma X15_witness :
  exists self rendered,
    init (env_with (blank_image 3 5)) "in.jpg" 180 120
      (CameraTag EQUIDISTANT) (FormatTag CIRCULAR) None = inr self /\
    call (env_with (blank_image 3 5)) self = inr rendered /\
    cli_fisheye_to_perspective (env_with (blank_image 3 5))
      (fun _ _ => ImwriteFalse) "in.jpg" "missing/out.jpg"
      None None None None
    = ([Echo "Saved image missing/out.jpg"], inr tt).
Proof.
  apply (proj2 (proj2 (X15_cli_reports_unless_imwrite_raises
                         (env_with (blank_image 3 5))
                         (fun _ _ => ImwriteFalse) "in.jpg"
                         "missing/out.jpg" None None None None))
           (blank_image 3 5) 3%nat 5%nat EQUIDISTANT CIRCULAR
           eq_refl eq_refl (blank_image_shape 3 5));
    try lia; reflexivity.
Defined.





(** ** app.py *)

Lemma array_ext {A : Type} (h w : nat) (a b : array A) (d : A) :
  has_shape h w a -> has_shape h w b ->
  (forall j i, (j < h)%nat -> (i < w)%nat -> get2 d a j i = get2 d b j i) ->
  a = b.
Proof.
  intros Ha Hb Hget.
  apply (nth_ext a b [] []).
  - rewrite (proj1 Ha), (proj1 Hb). reflexivity.
  - intros j Hj. rewrite (proj1 Ha) in Hj.
    apply (nth_ext _ _ d d).
    + rewrite (has_shape_row h w a j Ha Hj), (has_shape_row h w b j Hb Hj).
      reflexivity.
    + intros i Hi. rewrite (has_shape_row h w a j Ha Hj) in Hi.
      apply (Hget j i Hj Hi).
Qed.

Lemma zip_cons_nth {A : Type} (row : list A) (T : array A) (i : nat)
  (d : A) :
  (i < length row)%nat -> (i < length T)%nat ->
  nth i (zip_with cons row T) [] = nth i row d :: nth i T [].
Proof.
  revert T i. induction row as [| v row IH]; intros [| t T] [| i] Hr HT;
    simpl in *; try lia; [reflexivity |].
  apply IH; lia.
Qed.

Lemma singletons_nth {A : Type} (row : list A) (i : nat) (d : A) :
  (i < length row)%nat ->
  nth i (map (fun v => [v]) row) [] = [nth i row d].
Proof.
  revert i. induction row as [| v row IH]; intros [| i] Hi; simpl in *;
    try lia; [reflexivity |].
  apply IH. lia.
Qed.

(** [swapaxes(0, 1)] of an array of [h >= 1] rows and [w] columns has [w]
    rows and [h] columns and holds [a[j][i]] at [[i][j]]. *)
Lemma np_swapaxes01_spec {A : Type} (a : array A) :
  forall h w : nat,
    has_shape h w a -> (0 < h)%nat ->
    has_shape w h (np_swapaxes01 a) /\
    forall (i j : nat) (d : A),
      (i < w)%nat -> (j < h)%nat ->
      get2 d (np_swapaxes01 a) i j = get2 d a j i.
Proof.
  induction a as [| row rest IH]; intros h w [Hl Hr] Hh;
    simpl in Hl; [lia |].
  inversion Hr as [| r0 l0 Hrow Hrest]; subst r0 l0.
  destruct rest as [| row2 rest].
  - simpl in Hl. subst h. cbn [np_swapaxes01]. split.
    + split; [rewrite length_map; exact Hrow |].
      apply Forall_map, Forall_forall. intros v _. reflexivity.
    + intros i j d Hi Hj. assert (j = 0)%nat by lia. subst j.
      unfold get2. rewrite (singletons_nth row i d) by lia. reflexivity.
  - destruct (IH (length (row2 :: rest)) w) as [[Tl Tr] Tget].
    + split; [reflexivity | exact Hrest].
    + simpl. lia.
    + change (np_swapaxes01 (row :: row2 :: rest))
        with (zip_with cons row (np_swapaxes01 (row2 :: rest))).
      set (T := np_swapaxes01 (row2 :: rest)) in *.
      split.
      * split; [rewrite zip_with_length; lia |].
        apply Forall_nth. intros i d Hi.
        rewrite zip_with_length in Hi.
        rewrite (nth_indep _ d []) by (rewrite zip_with_length; lia).
        destruct row as [| v0 row']; [simpl in Hrow; lia |].
        rewrite (zip_cons_nth (v0 :: row') T i v0) by lia.
        cbn [length].
        rewrite (proj1 (Forall_nth _ _) Tr i [] ltac:(lia)).
        exact Hl.
      * intros i j d Hi Hj. unfold get2.
        rewrite (zip_cons_nth row T i d) by lia.
        destruct j as [| j].
        -- reflexivity.
        -- cbn [nth]. apply (Tget i j d); [exact Hi |].
           simpl in Hl |- *. lia.
Qed.

Lemma np_flip_axis2_shape (h w : nat) (img : Image) :
  has_shape h w img -> has_shape h w (np_flip_axis2 img).
Proof.
  intros H. apply (same_shape_has_shape h w img); [exact H |].
  apply same_shape_map2d.
Qed.

Lemma np_flip_axis2_get2 (h w : nat) (img : Image) (j i : nat)
  (d : Pixel) :
  has_shape h w img -> (j < h)%nat -> (i < w)%nat ->
  get2 d (np_flip_axis2 img) j i
  = (let '(b, g, r) := get2 d img j i in (r, g, b)).
Proof.
  intros H Hj Hi. unfold np_flip_axis2.
  assert (Hj' : (j < length img)%nat) by (rewrite (proj1 H); exact Hj).
  assert (Hi' : (i < length (nth j img []))%nat)
    by (rewrite (has_shape_row h w img j H Hj); exact Hi).
  match goal with
  | |- get2 _ (map2d ?f _) _ _ = _ =>
      exact (get2_map2d f img j i d d Hj' Hi')
  end.
Qed.

Lemma set_image_spec (img : Image) (h w : nat) :
  has_shape h w img -> (0 < h)%nat -> (0 < w)%nat ->
  has_shape w h (set_image img) /\
  forall (i j : nat) (d : Pixel),
    (i < w)%nat -> (j < h)%nat ->
    get2 d (set_image img) i j
    = (let '(b, g, r) := get2 d img j i in (r, g, b)).
Proof.
  intros Hs Hh Hw.
  pose proof (np_flip_axis2_shape h w img Hs) as Hf.
  destruct (np_swapaxes01_spec (np_flip_axis2 img) h w Hf Hh) as [Ts Tg].
  split; [exact Ts |].
  intros i j d Hi Hj. unfold set_image. rewrite (Tg i j d Hi Hj).
  apply (np_flip_axis2_get2 h w); assumption.
Qed.

(** X17: what [set_image] displays and stores.  For an image of [h] rows
    and [w] columns (both at least 1) the stored array has [w] rows and
    [h] columns and holds at [[i][j]] the pixel [image[j][i]] with its
    channels reversed (BGR becomes RGB); converting twice gives the image
    back. *)
Theorem X17_set_image_transposes_and_reverses (img : Image) (h w : nat) :
  has_shape h w img -> (0 < h)%nat -> (0 < w)%nat ->
  has_shape w h (set_image img) /\
  (forall (i j : nat) (d : Pixel),
     (i < w)%nat -> (j < h)%nat ->
     get2 d (set_image img) i j
     = (let '(b, g, r) := get2 d img j i in (r, g, b))) /\
  set_image (set_image img) = img.
Proof.
  intros Hs Hh Hw.
  destruct (set_image_spec img h w Hs Hh Hw) as [Ts Hget].
  split; [exact Ts |]. split; [exact Hget |].
  pose proof (np_flip_axis2_shape w h (set_image img) Ts) as Hf2.
  destruct (np_swapaxes01_spec (np_flip_axis2 (set_image img)) w h Hf2 Hw)
    as [Ts2 Tg2].
  apply (array_ext h w _ _ (0, 0, 0)%Z); [exact Ts2 | exact Hs |].
  intros j i Hj Hi.
  unfold set_image at 1. rewrite (Tg2 j i _ Hj Hi).
  rewrite (np_flip_axis2_get2 w h (set_image img) i j _ Ts Hi Hj).
  rewrite (Hget i j _ Hi Hj).
  change (@get2 (Z * Z * Z) (0, 0, 0)%Z img j i)
    with (@get2 Pixel (0, 0, 0)%Z img j i).
  destruct (@get2 Pixel (0, 0, 0)%Z img j i) as [[b g] r]. reflexivity.
Qed.

Lemma X17_witness :
  has_shape 3 2 (set_image [[(1, 2, 3); (4, 5, 6); (7, 8, 9)];
                            [(10, 11, 12); (13, 14, 15); (16, 17, 18)]]%Z)
  /\
  (forall (i j : nat) (d : Pixel),
     (i < 3)%nat -> (j < 2)%nat ->
     get2 d (set_image [[(1, 2, 3); (4, 5, 6); (7, 8, 9)];
                        [(10, 11, 12); (13, 14, 15); (16, 17, 18)]]%Z) i j
     = (let '(b, g, r) :=
          get2 d [[(1, 2, 3); (4, 5, 6); (7, 8, 9)];
                  [(10, 11, 12); (13, 14, 15); (16, 17, 18)]]%Z j i in
        (r, g, b))) /\
  set_image (set_image [[(1, 2, 3); (4, 5, 6); (7, 8, 9)];
                        [(10, 11, 12); (13, 14, 15); (16, 17, 18)]]%Z)
  = [[(1, 2, 3); (4, 5, 6); (7, 8, 9)];
     [(10, 11, 12); (13, 14, 15); (16, 17, 18)]]%Z.
Proof.
  apply (X17_set_image_transposes_and_reverses
           [[(1, 2, 3); (4, 5, 6); (7, 8, 9)];
            [(10, 11, 12); (13, 14, 15); (16, 17, 18)]]%Z 2 3);
    try lia.
  split; [reflexivity |]. repeat constructor.
Defined.

(** X18: the pixel read-out of [mouseMoveEvent] on an image shown by
    [set_image].  For an image of [h] rows and [w] columns it emits exactly
    at the positions with [0 <= x < h] and [0 <= y < w], the bounds of the
    stored (transposed) array, and the value it emits at [(x, y)] is the
    pixel of row [x] and column [y] of the image, channels reversed;
    before any image is set it emits nothing. *)
Theorem X18_mouse_read_out (img : Image) (h w : nat) (x y : Z) :
  has_shape h w img -> (0 < h)%nat -> (0 < w)%nat ->
  mouse_moved None x y = None /\
  ((0 <= x < Z.of_nat h)%Z /\ (0 <= y < Z.of_nat w)%Z ->
   mouse_moved (Some (set_image img)) x y
   = Some (x, y,
           let '(b, g, r) :=
             get2 (0, 0, 0)%Z img (Z.to_nat x) (Z.to_nat y) in
           (r, g, b))) /\
  (~ ((0 <= x < Z.of_nat h)%Z /\ (0 <= y < Z.of_nat w)%Z) ->
   mouse_moved (Some (set_image img)) x y = None).
Proof.
  intros Hs Hh Hw.
  destruct (set_image_spec img h w Hs Hh Hw) as [Ts Hget].
  assert (E0 : shape0 (set_image img) = Z.of_nat w)
    by (unfold shape0; rewrite (proj1 Ts); reflexivity).
  assert (E1 : shape1 (set_image img) = Z.of_nat h)
    by (unfold shape1; rewrite (has_shape_hd w h _ Ts Hw); reflexivity).
  split; [reflexivity |].
  unfold mouse_moved. rewrite E0, E1. split.
  - intros [[Hx0 Hx1] [Hy0 Hy1]].
    destruct (Z.leb_spec 0 x); [| lia].
    destruct (Z.ltb_spec x (Z.of_nat h)); [| lia].
    destruct (Z.leb_spec 0 y); [| lia].
    destruct (Z.ltb_spec y (Z.of_nat w)); [| lia].
    cbn [andb]. rewrite Hget by lia. reflexivity.
  - intros Hout.
    destruct (Z.leb_spec 0 x); [| reflexivity].
    destruct (Z.ltb_spec x (Z.of_nat h)); [| reflexivity].
    destruct (Z.leb_spec 0 y); [| reflexivity].
    destruct (Z.ltb_spec y (Z.of_nat w)); [| reflexivity].
    exfalso. apply Hout. lia.
Qed.

Lemma X18_witness :
  mouse_moved None 1 2 = None /\
  ((0 <= 1 < Z.of_nat 2)%Z /\ (0 <= 2 < Z.of_nat 3)%Z ->
   mouse_moved
     (Some (set_image [[(1, 2, 3); (4, 5, 6); (7, 8, 9)];
                       [(10, 11, 12); (13, 14, 15); (16, 17, 18)]]%Z)) 1 2
   = Some (1, 2,
           let '(b, g, r) :=
             get2 (0, 0, 0)%Z
               [[(1, 2, 3); (4, 5, 6); (7, 8, 9)];
                [(10, 11, 12); (13, 14, 15); (16, 17, 18)]]%Z
               (Z.to_nat 1) (Z.to_nat 2) in
           (r, g, b))%Z) /\
  (~ ((0 <= 1 < Z.of_nat 2)%Z /\ (0 <= 2 < Z.of_nat 3)%Z) ->
   mouse_moved
     (Some (set_image [[(1, 2, 3); (4, 5, 6); (7, 8, 9)];
                       [(10, 11, 12); (13, 14, 15); (16, 17, 18)]]%Z)) 1 2
   = None).
Proof.
  apply (X18_mouse_read_out
           [[(1, 2, 3); (4, 5, 6); (7, 8, 9)];
            [(10, 11, 12); (13, 14, 15); (16, 17, 18)]]%Z 2 3 1 2);
    try lia.
  split; [reflexivity |]. repeat constructor.
Defined.

(** X19: the names offered by the two combo boxes of the settings dialog
    are resolved by [submit] to the members they were generated from:
    [CameraType[member.name]] and [FisheyeFormat[member.name]] are the
    member again, a name resolves exactly when the combo box offers it,
    and no two members share a name (so that no [KeyError] can come from a
    combo box). *)
Theorem X19_combo_names_resolve :
  (forall ct, CameraType_by_name (CameraType_name ct) = Some ct) /\
  (forall fmt, FisheyeFormat_by_name (FisheyeFormat_name fmt) = Some fmt) /\
  (forall name ct,
     CameraType_by_name name = Some ct -> name = CameraType_name ct) /\
  (forall name fmt,
     FisheyeFormat_by_name name = Some fmt ->
     name = FisheyeFormat_name fmt) /\
  (forall name,
     In name camera_type_items <-> CameraType_by_name name <> None) /\
  (forall name,
     In name format_items <-> FisheyeFormat_by_name name <> None) /\
  NoDup camera_type_items /\ NoDup format_items.
Proof.
  assert (Hc : forall name ct,
            CameraType_by_name name = Some ct -> name = CameraType_name ct).
  { intros name ct H. unfold CameraType_by_name in H.
    apply find_some in H. destruct H as [_ H].
    apply String.eqb_eq in H. symmetry. exact H. }
  assert (Hf : forall name fmt,
            FisheyeFormat_by_name name = Some fmt ->
            name = FisheyeFormat_name fmt).
  { intros name fmt H. unfold FisheyeFormat_by_name in H.
    apply find_some in H. destruct H as [_ H].
    apply String.eqb_eq in H. symmetry. exact H. }
  assert (Rc : forall ct, CameraType_by_name (CameraType_name ct) = Some ct)
    by (intros []; reflexivity).
  assert (Rf : forall fmt,
            FisheyeFormat_by_name (FisheyeFormat_name fmt) = Some fmt)
    by (intros []; reflexivity).
  split; [exact Rc |]. split; [exact Rf |].
  split; [exact Hc |]. split; [exact Hf |].
  split; [| split; [| split]].
  - intros name. split.
    + intros Hin. unfold camera_type_items in Hin.
      apply in_map_iff in Hin. destruct Hin as (ct & <- & _).
      rewrite Rc. discriminate.
    + intros Hne. destruct (CameraType_by_name name) as [ct |] eqn:E;
        [| contradiction].
      rewrite (Hc name ct E). unfold camera_type_items.
      apply in_map. destruct ct; simpl; auto.
  - intros name. split.
    + intros Hin. unfold format_items in Hin.
      apply in_map_iff in Hin. destruct Hin as (fmt & <- & _).
      rewrite Rf. discriminate.
    + intros Hne. destruct (FisheyeFormat_by_name name) as [fmt |] eqn:E;
        [| contradiction].
      rewrite (Hf name fmt E). unfold format_items.
      apply in_map. destruct fmt; simpl; auto.
  - cbn. repeat constructor; cbn; intros H;
      repeat (destruct H as [H | H]; [discriminate H |]); exact H.
  - cbn. repeat constructor; cbn; intros H;
      repeat (destruct H as [H | H]; [discriminate H |]); exact H.
Qed.

Lemma X19_witness :
  CameraType_by_name "ORTHOGRAPHIC" = Some ORTHOGRAPHIC /\
  "ORTHOGRAPHIC"%string = CameraType_name ORTHOGRAPHIC.
Proof.
  split.
  - exact (proj1 X19_combo_names_resolve ORTHOGRAPHIC).
  - apply (proj1 (proj2 (proj2 X19_combo_names_resolve))).
    exact (proj1 X19_combo_names_resolve ORTHOGRAPHIC).
Defined.
